(** * Ashlar views: schema versioning, record aggregation and boundary creation

    A shallow embedding of [ashlar/views.py].  Database tables are lists of
    rows in insertion order, Python dictionaries are finite maps, exceptions
    are values of an error type threaded through a small result monad, and
    every view is a function from the request and the tables it reads to its
    outcome (and to the new tables when it writes). *)

From Stdlib Require Import ZArith Lia.
From stdpp Require Import gmap strings list fin_maps sorting.

Local Open Scope Z_scope.

(** ** Python values, exceptions and responses *)

(** The values a request carries: parsed JSON. *)
#[warnings="-register-all"]
Inductive pyval : Type :=
  | PNone
  | PInt (n : Z)
  | PStr (s : string)
  | PList (l : list pyval)
  | PDict (kv : list (string * pyval)).

(** The Django models of [ashlar.models] the views name. *)
Inductive model : Type :=
  | MRecordType | MRecordSchema | MRecord | MBoundary | MBoundaryPolygon.

(** The exceptions the views meet.  [DoesNotExist] and
    [MultipleObjectsReturned] are attributes of a model class, so the value
    carries the model. *)
Inductive exn : Type :=
  | DoesNotExist (m : model)
  | MultipleObjectsReturned (m : model)
  | IntegrityError
  | ValidationError
  | KeyError (k : string)
  | ValueError
  | TypeError
  | AttributeError.

Inductive result (A : Type) : Type :=
  | Ok (a : A)
  | Raise (e : exn).
Arguments Ok {A} a.
Arguments Raise {A} e.

(** Sequencing stops at the first exception; [x ← r; k] is stdpp's notation
    for it. *)
#[global] Instance result_bind : MBind result := λ A B k r,
  match r with
  | Ok a => k a
  | Raise e => Raise e
  end.

#[global] Instance result_ret : MRet result := @Ok.

(** [rest_framework.response.Response(data, status)]; the status is 200
    when the view gives none. *)
Record Response (B : Type) : Type := mkResponse { status : Z; data : B }.
Arguments mkResponse {B} status data.
Arguments status {B} r.
Arguments data {B} r.

Definition HTTP_200_OK : Z := 200.
Definition HTTP_201_CREATED : Z := 201.
Definition HTTP_405_METHOD_NOT_ALLOWED : Z := 405.
Definition HTTP_409_CONFLICT : Z := 409.

#[global] Instance model_eq_dec : EqDecision model.
Proof. solve_decision. Defined.

#[global] Instance exn_eq_dec : EqDecision exn.
Proof. solve_decision. Defined.

(** ** The object manager: [Model.objects.filter] and [Model.objects.get] *)

Section Manager.
Context {Row : Type}.
Variable m : model.
Variable P : Row → Prop.
Context `{!∀ r, Decision (P r)}.

Definition objects_filter (table : list Row) : list Row := filter P table.

(** [get] returns the one matching row, raises [DoesNotExist] when there
    is none and [MultipleObjectsReturned] when there are several. *)
Definition objects_get (table : list Row) : result Row :=
  match objects_filter table with
  | [] => Raise (DoesNotExist m)
  | [r] => Ok r
  | _ :: _ :: _ => Raise (MultipleObjectsReturned m)
  end.
End Manager.

(** ** Rows *)

Record RecordType : Type := mkRecordType {
  type_pk : Z;
  label : string;
  plural_label : string
}.

(** [next_version] is the nullable one-to-one self reference added by
    migration 0007; [previous_version] is its reverse accessor. *)
Record RecordSchema : Type := mkRecordSchema {
  schema_pk : Z;
  record_type : Z;
  version : Z;
  schema : pyval;
  next_version : option Z
}.

(** A record points at the schema it was created under; [occurred_from] is
    an instant in microseconds on the timeline [datetime.now()] reads. *)
Record Record_ : Type := mkRecord {
  record_pk : Z;
  record_schema : Z;
  occurred_from : Z
}.

Record Boundary : Type := mkBoundary {
  boundary_pk : Z;
  boundary_label : string
}.

(** ** RecordSchemaViewSet *)

(** The actions of a DRF viewset. *)
Inductive action : Type :=
  | list_action | create | retrieve | update | partial_update | destroy.

#[global] Instance action_eq_dec : EqDecision action.
Proof. solve_decision. Defined.

(** *** What the ORM makes of a lookup value *)

Definition ord (c : Ascii.ascii) : Z := Z.of_N (Ascii.N_of_ascii c).

(** The characters [str.strip()] removes: space, tab, newline, vertical tab,
    form feed, carriage return. *)
Definition is_space (c : Ascii.ascii) : bool :=
  bool_decide (ord c ∈ [32; 9; 10; 11; 12; 13]).

Definition digit (c : Ascii.ascii) : option Z :=
  if bool_decide (48 ≤ ord c ≤ 57) then Some (ord c - 48) else None.

Fixpoint digits (acc : Z) (cs : list Ascii.ascii) : option Z :=
  match cs with
  | [] => Some acc
  | c :: cs' => d ← digit c; digits (10 * acc + d) cs'
  end.

Fixpoint lstrip (cs : list Ascii.ascii) : list Ascii.ascii :=
  match cs with
  | [] => []
  | c :: cs' => if is_space c then lstrip cs' else cs
  end.

Definition strip (cs : list Ascii.ascii) : list Ascii.ascii :=
  reverse (lstrip (reverse (lstrip cs))).

Definition unsigned (cs : list Ascii.ascii) : option Z :=
  match cs with
  | [] => None
  | _ :: _ => digits 0 cs
  end.

(** Python's [int(s)] on a string: surrounding white space is dropped, a
    sign may lead, the rest is one or more decimal digits; anything else is
    a [ValueError] ([None] here). *)
Definition python_int (s : string) : option Z :=
  match strip (String.list_ascii_of_string s) with
  | [] => None
  | c :: cs =>
      if bool_decide (ord c = 43) then unsigned cs
      else if bool_decide (ord c = 45) then Z.opp <$> unsigned cs
      else unsigned (c :: cs)
  end.

(** The key a value stands for in the lookup [record_type=v], for integer
    keys: a number is itself, a string goes through [int], [None] turns
    the lookup into [IS NULL], a list or a dictionary is a [TypeError]. *)
Definition to_key (v : pyval) : result (option Z) :=
  match v with
  | PNone => Ok None
  | PInt n => Ok (Some n)
  | PStr s =>
      match python_int s with
      | Some n => Ok (Some n)
      | None => Raise ValueError
      end
  | PList _ | PDict _ => Raise TypeError
  end.

(** *** The request body *)

(** A parsed body that is not a JSON object. *)
Inductive plain : Type :=
  | PlainNone
  | PlainInt (n : Z)
  | PlainStr (s : string)
  | PlainList (l : list pyval).

(** [request.data]: the [dict] of a JSON object, the [QueryDict] of a
    form-encoded body, which is immutable, or any other parsed JSON
    value. *)
Inductive Body : Type :=
  | Dict (d : gmap string pyval)
  | QueryDict (d : gmap string pyval)
  | Plain (v : plain).

#[global] Instance body_lookup : Lookup string pyval Body := λ k b,
  match b with
  | Dict d | QueryDict d => d !! k
  | Plain _ => None
  end.

Definition is_str (k : string) (v : pyval) : bool :=
  match v with
  | PStr s => bool_decide (s = k)
  | _ => false
  end.

(** [k in body] *)
Definition contains (k : string) (b : Body) : result bool :=
  match b with
  | Dict d | QueryDict d => Ok (bool_decide (is_Some (d !! k)))
  | Plain (PlainStr s) => Ok (bool_decide (is_Some (String.index 0 k s)))
  | Plain (PlainList l) => Ok (existsb (is_str k) l)
  | Plain PlainNone | Plain (PlainInt _) => Raise TypeError
  end.

(** [body[k]] *)
Definition getitem (k : string) (b : Body) : result pyval :=
  match b with
  | Dict d | QueryDict d =>
      match d !! k with
      | Some v => Ok v
      | None => Raise (KeyError k)
      end
  | Plain _ => Raise TypeError
  end.

(** [body[k] = v]: a [dict] takes it, an immutable [QueryDict] raises
    [AttributeError]. *)
Definition setitem (k : string) (v : pyval) (b : Body) : result Body :=
  match b with
  | Dict d => Ok (Dict (<[k := v]> d))
  | QueryDict _ => Raise AttributeError
  | Plain _ => Raise TypeError
  end.

(** The keyword arguments of [get_serializer].  [data], when present, is the
    request's parsed body; the other keywords ([instance], [many],
    [partial], ...) are kept as they come. *)
Record Kwargs : Type := mkKwargs {
  kw_data : option Body;
  kw_rest : gmap string pyval
}.

(** What the inherited [get_serializer] builds when called on [args] and
    [kwargs]: the serializer constructed on exactly those arguments. *)
Record Serializer : Type := mkSerializer {
  ser_args : list pyval;
  ser_kwargs : Kwargs
}.

#[global] Instance result_eq_dec `{EqDecision A} : EqDecision (result A).
Proof. solve_decision. Defined.

(** The lookup [record_type=v, next_version=None]: [v] is the value the
    client sent; the row matches when [v] stands for the row's foreign key
    and the row has no successor. *)
Definition is_head_of (v : pyval) (r : RecordSchema) : Prop :=
  to_key v = Ok (Some (record_type r)) ∧ next_version r = None.

#[global] Instance is_head_of_dec v r : Decision (is_head_of v r).
Proof. unfold is_head_of. apply _. Defined.

Module RecordSchemaViewSet.

(** The [try]/[except RecordSchema.DoesNotExist] block: the value is
    converted when the query is built, and what the conversion raises is not
    caught; of the lookup's exceptions only [DoesNotExist] is. *)
Definition next_version_number (table : list RecordSchema) (v : pyval)
  : result Z :=
  match to_key v with
  | Raise e => Raise e
  | Ok _ =>
      match objects_get MRecordSchema (is_head_of v) table with
      | Ok head => Ok (version head + 1)
      | Raise (DoesNotExist MRecordSchema) => Ok 1
      | Raise e => Raise e
      end
  end.

(** [get_serializer]: [args] are the positional and [kwargs] the keyword
    arguments. *)
Definition get_serializer (table : list RecordSchema) (act : action)
    (args : list pyval) (kwargs : Kwargs) : result Serializer :=
  if decide (act = create) then
    match kw_data kwargs with
    | Some body =>
        has ← contains "record_type" body;
        if has : bool then
          v ← getitem "record_type" body;
          n ← next_version_number table v;
          body' ← setitem "version" (PInt n) body;
          Ok (mkSerializer args (mkKwargs (Some body') (kw_rest kwargs)))
        else Ok (mkSerializer args kwargs)
    | None => Ok (mkSerializer args kwargs)
    end
  else Ok (mkSerializer args kwargs).

End RecordSchemaViewSet.

(** ** The schema store behind [SchemaViewSet] *)

(** The mixins a DRF viewset class can list among its bases, and the actions
    each brings. *)
Inductive mixin : Type :=
  | ListModelMixin | CreateModelMixin | RetrieveModelMixin
  | UpdateModelMixin | DestroyModelMixin.

Definition mixin_actions (mx : mixin) : list action :=
  match mx with
  | ListModelMixin => [list_action]
  | CreateModelMixin => [create]
  | RetrieveModelMixin => [retrieve]
  | UpdateModelMixin => [update; partial_update]
  | DestroyModelMixin => [destroy]
  end.

(** [class SchemaViewSet(viewsets.GenericViewSet, mixins.ListModelMixin,
    mixins.CreateModelMixin, mixins.RetrieveModelMixin)] *)
Definition SchemaViewSet_bases : list mixin :=
  [ListModelMixin; CreateModelMixin; RetrieveModelMixin].

(** [viewsets.ModelViewSet], the base of the other viewsets of the file. *)
Definition ModelViewSet_bases : list mixin :=
  [CreateModelMixin; RetrieveModelMixin; UpdateModelMixin;
   DestroyModelMixin; ListModelMixin].

Definition has_action (bases : list mixin) (act : action) : bool :=
  bool_decide (act ∈ bases ≫= mixin_actions).

Definition with_next_version (r : RecordSchema) (nv : option Z) : RecordSchema :=
  mkRecordSchema (schema_pk r) (record_type r) (version r) (schema r) nv.

Definition with_schema (r : RecordSchema) (doc : pyval) : RecordSchema :=
  mkRecordSchema (schema_pk r) (record_type r) (version r) doc (next_version r).

(** The body of a schema-create request for record type [rt]. *)
Definition post_data (rt : Z) (doc : pyval) : gmap string pyval :=
  <["record_type" := PInt rt]> (<["schema" := doc]> ∅).

Module SchemaStore.

Record Validated : Type := mkValidated {
  v_record_type : Z;
  v_version : Z;
  v_schema : pyval
}.

Record Request : Type := mkRequest {
  req_action : action;
  req_pk : Z;
  req_data : gmap string pyval
}.

Inductive outcome : Type :=
  | Listed (rows : list RecordSchema)
  | Retrieved (r : RecordSchema)
  | Created (r : RecordSchema)
  | Updated (r : RecordSchema)
  | Destroyed
  | MethodNotAllowed
  | Failed (e : exn).

(** A key no row of the table has: the storage layer's key generator. *)
Definition fresh_pk (table : list RecordSchema) : Z :=
  foldr Z.max 0 (schema_pk <$> table) + 1.

(** [UPDATE ... SET next_version = new_pk WHERE id = pk] *)
Definition set_next_version (pk new_pk : Z) (table : list RecordSchema)
  : list RecordSchema :=
  (λ r, if decide (schema_pk r = pk)
        then with_next_version r (Some new_pk) else r) <$> table.

Section WithCollaborators.
(** The Validator's document-level check of a schema definition. *)
Variable well_formed : pyval → bool.
(** The filter backends of the list action, applied to the rows. *)
Variable filter_queryset :
  gmap string pyval → list RecordSchema → list RecordSchema.

(** Modelled from the spec: the validation step of
    [RecordSchemaSerializer] ([ashlar/serializers.py] is not among the
    sources).  A schema needs its record type, the version and a
    well-formed schema document; anything else is a [ValidationError]. *)
Definition is_valid (s : Serializer) : result Validated :=
  match kw_data (ser_kwargs s) with
  | Some d =>
      match d !! "record_type", d !! "version", d !! "schema" with
      | Some (PInt rt), Some (PInt n), Some doc =>
          if well_formed doc then Ok (mkValidated rt n doc)
          else Raise ValidationError
      | _, _, _ => Raise ValidationError
      end
  | None => Raise ValidationError
  end.

(** Modelled from the spec: the write of [createSchema] (the serializer's
    [create], not among the sources).  The new row is stored as the head
    of its chain; when the type has a current head, that head's
    [next_version] is set to the new row in the same step. *)
Definition save (table : list RecordSchema) (v : Validated)
  : result (RecordSchema * list RecordSchema) :=
  let new := mkRecordSchema (fresh_pk table) (v_record_type v)
               (v_version v) (v_schema v) None in
  match objects_get MRecordSchema
          (is_head_of (PInt (v_record_type v))) table with
  | Ok head =>
      Ok (new, set_next_version (schema_pk head) (schema_pk new) table
                 ++ [new])
  | Raise (DoesNotExist MRecordSchema) => Ok (new, table ++ [new])
  | Raise e => Raise e
  end.

(** The create action of [CreateModelMixin]: build the serializer from
    the request data through the viewset's [get_serializer], validate,
    save. *)
Definition createSchema (table : list RecordSchema)
    (d : gmap string pyval) : result (RecordSchema * list RecordSchema) :=
  s ← RecordSchemaViewSet.get_serializer table create []
        (mkKwargs (Some (Dict d)) ∅);
  v ← is_valid s;
  save table v.

(** One request against a viewset with the given bases.  An action no
    base provides is answered 405 and touches nothing; a failed action
    writes nothing. *)
Definition dispatch (bases : list mixin) (table : list RecordSchema)
    (rq : Request) : outcome * list RecordSchema :=
  if has_action bases (req_action rq) then
    match req_action rq with
    | list_action => (Listed (filter_queryset (req_data rq) table), table)
    | retrieve =>
        match objects_get MRecordSchema
                (λ r, schema_pk r = req_pk rq) table with
        | Ok r => (Retrieved r, table)
        | Raise e => (Failed e, table)
        end
    | create =>
        match createSchema table (req_data rq) with
        | Ok (new, table') => (Created new, table')
        | Raise e => (Failed e, table)
        end
    | update | partial_update =>
        match objects_get MRecordSchema
                (λ r, schema_pk r = req_pk rq) table,
              req_data rq !! "schema" with
        | Ok r, Some doc =>
            (Updated (with_schema r doc),
             (λ r', if decide (schema_pk r' = req_pk rq)
                    then with_schema r' doc else r') <$> table)
        | Ok r, None => (Updated r, table)
        | Raise e, _ => (Failed e, table)
        end
    | destroy =>
        match objects_get MRecordSchema
                (λ r, schema_pk r = req_pk rq) table with
        | Ok r => (Destroyed, filter (λ r', schema_pk r' ≠ req_pk rq) table)
        | Raise e => (Failed e, table)
        end
    end
  else (MethodNotAllowed, table).

(** The table after a sequence of requests. *)
Definition run (bases : list mixin) (table : list RecordSchema)
    (rqs : list Request) : list RecordSchema :=
  foldl (λ t rq, (dispatch bases t rq).2) table rqs.

(** [createSchema] called once per document, in order, for one type. *)
Fixpoint create_all (rt : Z) (docs : list pyval)
    (table : list RecordSchema) : result (list RecordSchema) :=
  match docs with
  | [] => Ok table
  | doc :: docs' =>
      nt ← createSchema table (post_data rt doc);
      create_all rt docs' nt.2
  end.
End WithCollaborators.

(** Chain-head uniqueness: no record type has two rows whose
    [next_version] is null. *)
Definition at_most_one_head (table : list RecordSchema) : Prop :=
  ∀ rt : Z, (length (filter (is_head_of (PInt rt)) table) ≤ 1)%nat.

(** The rows of one record type, oldest first. *)
Definition chain (rt : Z) (table : list RecordSchema) : list RecordSchema :=
  filter (λ r, record_type r = rt) table.

(** The chain the specification describes for the rows keyed and filled
    by [pds], oldest first: versions [v], [v + 1], ..., and each row's
    [next_version] the key of the row after it, null on the last. *)
Fixpoint linked_chain (rt v : Z) (pds : list (Z * pyval))
  : list RecordSchema :=
  match pds with
  | [] => []
  | pd :: rest =>
      mkRecordSchema pd.1 rt v pd.2 (head (fst <$> rest))
        :: linked_chain rt (v + 1) rest
  end.

(** The invariant of repeated creation for one type: the rows of the type
    are the linked chain of some keys and documents. *)
Definition chained (rt : Z) (table : list RecordSchema)
    (pds : list (Z * pyval)) : Prop :=
  chain rt table = linked_chain rt 1 pds ∧ NoDup (fst <$> pds).

(** Two rows hold the same schema: everything but the link agrees. *)
Definition same_document (r r' : RecordSchema) : Prop :=
  schema_pk r' = schema_pk r ∧ record_type r' = record_type r
  ∧ version r' = version r ∧ schema r' = schema r.

End SchemaStore.

(** ** RecordViewSet *)

(** The part of the HTTP request the views read: the query parameters. *)
Record HttpRequest : Type := mkHttpRequest {
  GET : gmap string string
}.

(** What a view does to the database connection. *)
Inductive db_event : Type :=
  | CursorOpened
  | CursorClosed
  | Executed (sql : string) (params : list pyval).

Record DbState : Type := mkDbState {
  stored : list Record_;
  events : list db_event
}.

(** A row of the [toddow] answer: [{'tod': .., 'dow': .., 'count': ..}]. *)
Record ToddowRow : Type := mkToddowRow {
  tod : option Z;
  dow : option Z;
  count : Z
}.

(** [xrange(a, b)] *)
Definition xrange (a b : Z) : list Z := seqZ a (b - a).

(** [Case(When(field=x, then=Value(x)) for x in xs)] with no default: the
    first [x] the field equals, NULL when there is none. *)
Definition case_when (field : Z) (xs : list Z) : option Z :=
  head (filter (λ x, field = x) xs).

(** Ascending order on a nullable column; NULL sorts after every value. *)
Definition nulls_last_le (a b : option Z) : Prop :=
  match a, b with
  | Some x, Some y => x ≤ y
  | _, None => True
  | None, Some _ => False
  end.

(** [ORDER BY tod, dow] on the pair of columns. *)
Definition tod_dow_le (k1 k2 : option Z * option Z) : Prop :=
  (nulls_last_le k1.1 k2.1 ∧ k1.1 ≠ k2.1)
  ∨ (k1.1 = k2.1 ∧ nulls_last_le k1.2 k2.2).

(** Ascending order of two groups whose columns are not NULL: by [tod],
    then by [dow]. *)
Definition tod_then_dow (k1 k2 : Z * Z) : Prop :=
  k1.1 < k2.1 ∨ (k1.1 = k2.1 ∧ k1.2 < k2.2).

#[global] Instance nulls_last_le_dec a b : Decision (nulls_last_le a b).
Proof. destruct a, b; simpl; apply _. Defined.

#[global] Instance tod_dow_le_dec k1 k2 : Decision (tod_dow_le k1 k2).
Proof. unfold tod_dow_le. apply _. Defined.

(** The specification's reading of "apply the configured filters": the first
    backend of the tuple on the query set the view starts from, the next on
    what that one returned, and so on to the last. *)
Fixpoint filtered {Q : Type} (request : HttpRequest)
    (backends : list (HttpRequest → Q → Q)) (q : Q) : Q :=
  match backends with
  | [] => q
  | backend :: rest => filtered request rest (backend request q)
  end.

(** [filter_backends = (InBBoxFilter, JsonBFilterBackend,
    DjangoFilterBackend, DateRangeFilterBackend)], each backend by its
    [filter_queryset]. *)
Definition RecordViewSet_filter_backends {Q : Type}
    (InBBoxFilter JsonBFilterBackend DjangoFilterBackend
     DateRangeFilterBackend : HttpRequest → Q → Q)
  : list (HttpRequest → Q → Q) :=
  [InBBoxFilter; JsonBFilterBackend; DjangoFilterBackend;
   DateRangeFilterBackend].

Module RecordViewSet.
Section WithDatabase.
(** A lazy query set, the query sets the view starts from and the filter
    backends of [filter_backends], each by its [filter_queryset]. *)
Variable QuerySet : Type.
Variable get_queryset : QuerySet.
Variable filter_backends : list (HttpRequest → QuerySet → QuerySet).
(** The rows the database returns when the query set is evaluated. *)
Variable fetch : QuerySet → list Record_.
(** The database's [week_day] and [hour] lookups on an instant. *)
Variable week_day : Z → Z.
Variable hour : Z → Z.
(** Django's SQL compiler and psycopg2's [mogrify]. *)
Variable sql_with_params : QuerySet → string * list pyval.
Variable mogrify : string → list pyval → string.
(** The inherited [ListModelMixin.list].  The view passes itself where the
    request is expected; the inherited method takes the request from the
    view, so it is a function of the request all the same. *)
Variable super_list : HttpRequest → DbState → Response pyval * DbState.

(** [for backend in list(self.filter_backends): qryset = ...] *)
Definition apply_filters (request : HttpRequest) : QuerySet :=
  foldl (λ qryset backend, backend request qryset)
        get_queryset filter_backends.

Definition dow_case (r : Record_) : option Z :=
  case_when (week_day (occurred_from r)) (xrange 1 8).

Definition tod_case (r : Record_) : option Z :=
  case_when (hour (occurred_from r)) (xrange 0 24).

(** [values('tod', 'dow')] on the annotated rows. *)
Definition values_tod_dow (rows : list Record_)
  : list (option Z * option Z) :=
  (λ r, (tod_case r, dow_case r)) <$> rows.

(** [Count('tod')] within the group of [k]: the rows of the group whose
    [tod] is not NULL. *)
Definition count_tod (k : option Z * option Z)
    (vals : list (option Z * option Z)) : Z :=
  Z.of_nat (length (filter (λ k', k' = k ∧ is_Some k'.1) vals)).

(** [.values('tod', 'dow').order_by('tod', 'dow').annotate(count=...)]:
    one row per distinct pair, in the order of the pairs. *)
Definition counted (vals : list (option Z * option Z)) : list ToddowRow :=
  (λ k, mkToddowRow k.1 k.2 (count_tod k vals))
    <$> merge_sort tod_dow_le (remove_dups vals).

(** The hour of day and day of week of a record, and the number of
    rows that share a given pair: the specification's groups. *)
Definition tod_dow_of (r : Record_) : Z * Z :=
  (hour (occurred_from r), week_day (occurred_from r)).

Definition group_size (k : Z * Z) (rows : list Record_) : Z :=
  Z.of_nat (length (filter (λ r, tod_dow_of r = k) rows)).

Definition toddow (request : HttpRequest) : Response (list ToddowRow) :=
  let qryset := apply_filters request in
  mkResponse HTTP_200_OK (counted (values_tod_dow (fetch qryset))).

(** [list]: with [query] among the parameters, the SQL of the filtered
    query set, rendered on a cursor that is opened and closed; without,
    the inherited listing. *)
Definition list (request : HttpRequest) (st : DbState)
  : Response pyval * DbState :=
  match GET request !! "query" with
  | Some _ =>
      let qryset := apply_filters request in
      let st1 := mkDbState (stored st) (events st ++ [CursorOpened]) in
      let '(sql, params) := sql_with_params qryset in
      let qrystr := mogrify sql params in
      let st2 := mkDbState (stored st1) (events st1 ++ [CursorClosed]) in
      (mkResponse HTTP_200_OK (PDict [("query", PStr qrystr)]), st2)
  | None => super_list request st
  end.
End WithDatabase.
End RecordViewSet.

(** *** What [mogrify] renders *)

Definition is_quote (c : Ascii.ascii) : bool := bool_decide (ord c = 39).
Definition is_percent (c : Ascii.ascii) : bool := bool_decide (ord c = 37).
Definition is_s (c : Ascii.ascii) : bool := bool_decide (ord c = 115).

(** Every single quote doubled. *)
Fixpoint escape_quotes (s : string) : string :=
  match s with
  | EmptyString => EmptyString
  | String c rest =>
      if is_quote c then String c (String c (escape_quotes rest))
      else String c (escape_quotes rest)
  end.

(** A text parameter as an SQL string literal. *)
Definition quote_text (s : string) : string :=
  String (Ascii.ascii_of_nat 39)
    (escape_quotes s +:+ String (Ascii.ascii_of_nat 39) EmptyString).

(** Reading a string literal back, from the character after its opening
    quote: a doubled quote is a quote of the text, a single quote closes the
    literal and must be its last character. *)
Fixpoint closed_text (cs : string) : option string :=
  match cs with
  | EmptyString => None
  | String c rest =>
      if is_quote c then
        match rest with
        | EmptyString => Some EmptyString
        | String c' rest' =>
            if is_quote c' then String c' <$> closed_text rest' else None
        end
      else String c <$> closed_text rest
  end.

Definition literal_text (lit : string) : option string :=
  match lit with
  | EmptyString => None
  | String c rest => if is_quote c then closed_text rest else None
  end.

Fixpoint decimal_go (fuel : nat) (n : Z) (acc : string) : string :=
  match fuel with
  | O => acc
  | S fuel' =>
      let acc' :=
        String (Ascii.ascii_of_N (Z.to_N (48 + n `mod` 10))) acc in
      if bool_decide (n `div` 10 = 0) then acc'
      else decimal_go fuel' (n `div` 10) acc'
  end.

(** A number in decimal; the bit length bounds the number of digits. *)
Definition decimal (n : Z) : string :=
  if bool_decide (n < 0)
  then " -" +:+ decimal_go (Z.to_nat (Z.log2 (- n)) + 1) (- n) EmptyString
  else decimal_go (Z.to_nat (Z.log2 n) + 1) n EmptyString.

(** psycopg2's adaptation of a query parameter to a literal, for the
    parameters a filter value gives: [None], numbers and text. *)
Definition adapt (v : pyval) : option string :=
  match v with
  | PNone => Some "NULL"
  | PInt n => Some (decimal n)
  | PStr s => Some (quote_text s)
  | PList _ | PDict _ => None
  end.

(** The query with each [%s] replaced by the next literal and [%%] by a
    percent sign; a placeholder without literal, or a literal without
    placeholder, is an error. *)
Fixpoint substitute (sql : string) (lits : list string) : option string :=
  match sql with
  | EmptyString =>
      match lits with
      | [] => Some EmptyString
      | _ :: _ => None
      end
  | String c rest =>
      if is_percent c then
        match rest with
        | EmptyString => None
        | String c' rest' =>
            if is_s c' then
              match lits with
              | lit :: lits' => (λ t, lit +:+ t) <$> substitute rest' lits'
              | [] => None
              end
            else if is_percent c' then String c' <$> substitute rest' lits
            else None
        end
      else String c <$> substitute rest lits
  end.

(** [cursor.mogrify(sql, params)] on parameters that adapt. *)
Definition pg_mogrify (sql : string) (params : list pyval) : string :=
  default EmptyString (lits ← mapM adapt params; substitute sql lits).

(** Instants are microseconds since 1970-01-01T00:00 UTC, a Thursday;
    [week_day] counts from Sunday = 1. *)
Definition utc_hour (t : Z) : Z := (t `div` 3600000000) `mod` 24.
Definition utc_week_day (t : Z) : Z := (t `div` 86400000000 + 4) `mod` 7 + 1.

(** ** RecordTypeViewSet *)

(** [timedelta(days=d)] in microseconds. *)
Definition timedelta_days (d : Z) : Z := d * 86400000000.

Module RecordTypeViewSet.

Definition durations : gmap string Z :=
  <["month" := 30]> (<["quarter" := 90]> (<["year" := 365]> ∅)).

Definition counts_init : gmap string Z :=
  <["month" := 0]> (<["quarter" := 0]> (<["year" := 0]> ∅)).

(** [record_type.schemas.all()]: the reverse side of the schema's foreign
    key to its record type. *)
Definition schemas_all (rt : RecordType) (schemas : list RecordSchema)
  : list RecordSchema :=
  filter (λ s, record_type s = type_pk rt) schemas.

(** [schema.record_set]: the records created under the schema. *)
Definition record_set (s : RecordSchema) (records : list Record_)
  : list Record_ :=
  filter (λ r, record_schema r = schema_pk s) records.

(** [.filter(occurred_from__lte=now, occurred_from__gte=earliest).count()] *)
Definition count_between (earliest now : Z) (rs : list Record_) : Z :=
  Z.of_nat
    (length (filter (λ r, occurred_from r ≤ now ∧ earliest ≤ occurred_from r)
                    rs)).

(** [counts[label] += count]; a missing key is a [KeyError]. *)
Definition add_count (label : string) (c : Z) (counts : gmap string Z)
  : result (gmap string Z) :=
  match counts !! label with
  | Some old => Ok (<[label := old + c]> counts)
  | None => Raise (KeyError label)
  end.

(** The inner [for label, days in durations.items()], the items taken in
    the order the dictionary yields them. *)
Fixpoint count_schema (now : Z) (rs : list Record_)
    (items : list (string * Z)) (counts : gmap string Z)
  : result (gmap string Z) :=
  match items with
  | [] => Ok counts
  | (label, days) :: items' =>
      let earliest := now - timedelta_days days in
      counts' ← add_count label (count_between earliest now rs) counts;
      count_schema now rs items' counts'
  end.

(** The outer [for schema in record_type.schemas.all()]. *)
Fixpoint count_schemas (now : Z) (records : list Record_)
    (items : list (string * Z)) (schemas : list RecordSchema)
    (counts : gmap string Z) : result (gmap string Z) :=
  match schemas with
  | [] => Ok counts
  | s :: schemas' =>
      counts' ← count_schema now (record_set s records) items counts;
      count_schemas now records items schemas' counts'
  end.

(** [recent_counts], with the order of [durations.items()] explicit. *)
Definition recent_counts_in_order (items : list (string * Z))
    (types : list RecordType) (schemas : list RecordSchema)
    (records : list Record_) (now : Z) (pk : Z)
  : result (Response (gmap string Z)) :=
  rt ← objects_get MRecordType (λ t, type_pk t = pk) types;
  counts ← count_schemas now records items (schemas_all rt schemas)
             counts_init;
  Ok (mkResponse HTTP_200_OK counts).

(** [recent_counts(self, request, pk)]; [now] is what [datetime.now()]
    reads. *)
Definition recent_counts (types : list RecordType)
    (schemas : list RecordSchema) (records : list Record_) (now : Z)
    (pk : Z) : result (Response (gmap string Z)) :=
  recent_counts_in_order (map_to_list durations) types schemas records now pk.

(** The specification's reading of one window: over every schema of the
    type, the number of its records that occurred in
    [[now - days, now]], summed. *)
Definition window_total (type_id : Z) (schemas : list RecordSchema)
    (records : list Record_) (now days : Z) : Z :=
  foldr Z.add 0
    ((λ s, Z.of_nat (length (filter
             (λ r, record_schema r = schema_pk s
                   ∧ now - timedelta_days days ≤ occurred_from r
                   ∧ occurred_from r ≤ now) records)))
       <$> filter (λ s, record_type s = type_id) schemas).

End RecordTypeViewSet.

(** ** BoundaryViewSet *)

Module BoundaryViewSet.

Definition conflict_response : Response pyval :=
  mkResponse HTTP_409_CONFLICT
    (PDict [("error", PStr "uniqueness constraint violation")]).

Section WithInherited.
(** The inherited [ModelViewSet.create]: its outcome and the table it
    leaves. *)
Variable super_create :
  gmap string pyval → list Boundary
  → result (Response pyval) * list Boundary.

(** [create]: an [IntegrityError] of the inherited create becomes a 409
    response; everything else passes. *)
Definition create (request_data : gmap string pyval)
    (table : list Boundary) : result (Response pyval) * list Boundary :=
  match super_create request_data table with
  | (Raise IntegrityError, table') => (Ok conflict_response, table')
  | other => other
  end.
End WithInherited.

(** Modelled from the spec: the inherited create over a [Boundary] table
    whose labels are unique ([ashlar/models.py] and the serializer are not
    among the sources).  A request without a label is invalid; a label
    already stored violates the constraint and the insert writes nothing;
    otherwise the row is appended. *)
Definition model_create (request_data : gmap string pyval)
    (table : list Boundary) : result (Response pyval) * list Boundary :=
  match request_data !! "label" with
  | Some (PStr l) =>
      if decide (l ∈ boundary_label <$> table)
      then (Raise IntegrityError, table)
      else
        let pk := foldr Z.max 0 (boundary_pk <$> table) + 1 in
        (Ok (mkResponse HTTP_201_CREATED
               (PDict [("id", PInt pk); ("label", PStr l)])),
         table ++ [mkBoundary pk l])
  | _ => (Raise ValidationError, table)
  end.

End BoundaryViewSet.

(** ** BoundaryViewSet.geojson *)

Record BoundaryPolygon : Type := mkBoundaryPolygon {
  polygon_pk : Z;
  polygon_boundary : Z;
  polygon_geom : pyval;
  polygon_data : pyval
}.

(** How a detail view ends: with a response, with the [Http404] that
    [get_object] raises, or with another exception on its way out. *)
Inductive detail_outcome (B : Type) : Type :=
  | Responded (r : Response B)
  | Http404
  | Raised (e : exn).
Arguments Responded {B} r.
Arguments Http404 {B}.
Arguments Raised {B} e.

Module BoundaryGeojson.
Section WithCollaborators.
(** The filter backends of the viewset, which [get_object] applies to the
    query set before it looks the key up, and the
    [BoundaryPolygonSerializer.to_representation] of a polygon's values. *)
Variable filter_queryset : HttpRequest → list Boundary → list Boundary.
Variable to_representation : BoundaryPolygon → pyval.

(** [self.get_object()]: the row of the filtered query set with the key;
    [get_object_or_404] turns the missing row into [Http404] and nothing
    else. *)
Definition get_object (request : HttpRequest) (boundaries : list Boundary)
    (pk : Z) : detail_outcome Boundary :=
  match objects_get MBoundary (λ b, boundary_pk b = pk)
          (filter_queryset request boundaries) with
  | Ok b => Responded (mkResponse HTTP_200_OK b)
  | Raise (DoesNotExist _) => Http404
  | Raise e => Raised e
  end.

(** [boundary.polygons.values()]: the polygons whose foreign key is the
    boundary. *)
Definition polygons_values (b : Boundary) (polygons : list BoundaryPolygon)
  : list BoundaryPolygon :=
  filter (λ p, polygon_boundary p = boundary_pk b) polygons.

(** [geojson(self, request, pk)] *)
Definition geojson (request : HttpRequest) (boundaries : list Boundary)
    (polygons : list BoundaryPolygon) (pk : Z) : detail_outcome pyval :=
  match get_object request boundaries pk with
  | Responded r =>
      let features := to_representation <$> polygons_values (data r) polygons in
      Responded
        (mkResponse HTTP_200_OK
           (PDict [("type", PStr "FeatureCollection");
                   ("features", PList features)]))
  | Http404 => Http404
  | Raised e => Raised e
  end.
End WithCollaborators.
End BoundaryGeojson.

(** ** Well-formed version links *)

(** Every link points at a stored row of the same record type with a larger
    version: what the foreign key of [next_version] and the numbering of
    versions give together. *)
Definition links_increase (table : list RecordSchema) : Prop :=
  ∀ r p, r ∈ table → next_version r = Some p →
    ∃ r', r' ∈ table ∧ schema_pk r' = p
          ∧ record_type r' = record_type r ∧ version r < version r'.

(** The records [recent_counts] can count for a type and a window: those
    whose schema is a schema of the type and that occurred within the
    window. *)
Definition counted_records (type_id : Z) (schemas : list RecordSchema)
    (records : list Record_) (now days : Z) : list Record_ :=
  filter (λ r, record_schema r
                 ∈ schema_pk <$> filter (λ s, record_type s = type_id) schemas
               ∧ now - timedelta_days days ≤ occurred_from r
               ∧ occurred_from r ≤ now) records.

(** Every pair of an hour of day and a day of week. *)
Definition all_tod_dow : list (Z * Z) :=
  cprod (seqZ 0 24) (seqZ 1 7).

(** ** Two creations in flight *)

(** The create action does two things to the table, one after the other: the
    viewset's [get_serializer] reads the head, and the save writes the new
    row and the link.  Nothing in the view ties the two together, so the
    steps of two calls can come in any order. *)
Module Interleaving.

Inductive caller : Type := A | B.

(** A call that has not started, one whose serializer is built (the read is
    done, the write is not), and one that has returned. *)
Inductive call : Type :=
  | Waiting (d : gmap string pyval)
  | Built (s : Serializer)
  | Returned (r : result RecordSchema).

Record state : Type := mkState {
  table : list RecordSchema;
  call_a : call;
  call_b : call
}.

Section WithValidator.
Variable well_formed : pyval → bool.

Definition read_step (t : list RecordSchema) (d : gmap string pyval)
  : result Serializer :=
  RecordSchemaViewSet.get_serializer t create [] (mkKwargs (Some (Dict d)) ∅).

Definition write_step (t : list RecordSchema) (s : Serializer)
  : result (RecordSchema * list RecordSchema) :=
  v ← SchemaStore.is_valid well_formed s;
  SchemaStore.save t v.

(** The next step of one call on the table as it is now. *)
Definition advance (t : list RecordSchema) (c : call)
  : list RecordSchema * call :=
  match c with
  | Waiting d =>
      match read_step t d with
      | Ok s => (t, Built s)
      | Raise e => (t, Returned (Raise e))
      end
  | Built s =>
      match write_step t s with
      | Ok (new, t') => (t', Returned (Ok new))
      | Raise e => (t, Returned (Raise e))
      end
  | Returned r => (t, Returned r)
  end.

Definition step (st : state) (who : caller) : state :=
  match who with
  | A => let '(t, c) := advance (table st) (call_a st) in
         mkState t c (call_b st)
  | B => let '(t, c) := advance (table st) (call_b st) in
         mkState t (call_a st) c
  end.

(** The state after the calls have taken their steps in the order of the
    schedule. *)
Definition run (schedule : list caller) (st : state) : state :=
  foldl step st schedule.
End WithValidator.

End Interleaving.

(** ** How the framework answers what leaves a view *)

Definition HTTP_404_NOT_FOUND : Z := 404.
Definition HTTP_500_INTERNAL_SERVER_ERROR : Z := 500.

(** A view that returns answers with its response; an exception it lets out
    is carried as it is. *)
Definition outcome_of {B : Type} (r : result (Response B)) : detail_outcome B :=
  match r with
  | Ok response => Responded response
  | Raise e => Raised e
  end.

(** The status the client sees: [Http404] is answered 404; an exception that
    is not one of the framework's own is not handled and the server answers
    500. *)
Definition answered_status {B : Type} (o : detail_outcome B) : Z :=
  match o with
  | Responded response => status response
  | Http404 => HTTP_404_NOT_FOUND
  | Raised _ => HTTP_500_INTERNAL_SERVER_ERROR
  end.

(** * Properties *)

(** ** The object manager *)

Section ManagerFacts.
Context {Row : Type}.
Variable m : model.
Variable P : Row → Prop.
Context {Pdec : ∀ r, Decision (P r)}.

Lemma objects_get_Ok table r :
  objects_get m P table = Ok r ↔ filter P table = [r].
Proof.
  unfold objects_get, objects_filter.
  destruct (filter P table) as [|r1 [|r2 l]]; split; intros H;
    try discriminate; congruence.
Qed.

Lemma objects_get_DoesNotExist table :
  objects_get m P table = Raise (DoesNotExist m) ↔ filter P table = [].
Proof.
  unfold objects_get, objects_filter.
  destruct (filter P table) as [|r1 [|r2 l]]; split; intros H;
    try discriminate; congruence.
Qed.



Lemma objects_get_Ok_elem table r :
  objects_get m P table = Ok r → r ∈ table ∧ P r.
Proof.
  intros H%objects_get_Ok.
  assert (Hr : r ∈ filter P table) by (rewrite H; apply list_elem_of_here).
  apply list_elem_of_filter in Hr. tauto.
Qed.

Lemma objects_get_none table :
  (∀ r, r ∈ table → ¬ P r) → objects_get m P table = Raise (DoesNotExist m).
Proof.
  intros H. apply objects_get_DoesNotExist.
  destruct (filter P table) as [|r l] eqn:E; [reflexivity|].
  assert (Hr : r ∈ filter P table) by (rewrite E; apply list_elem_of_here).
  apply list_elem_of_filter in Hr. destruct Hr as [HP Hin].
  destruct (H r Hin HP).
Qed.
End ManagerFacts.

(** ** RecordSchemaViewSet.get_serializer *)

Section GetSerializer.
Import RecordSchemaViewSet.

Lemma is_head_of_to_key v r :
  is_head_of v r → to_key v = Ok (Some (record_type r)).
Proof. by intros [? _]. Qed.

Lemma next_version_number_head table v head :
  objects_get MRecordSchema (is_head_of v) table = Ok head →
  next_version_number table v = Ok (version head + 1).
Proof.
  intros Hget. unfold next_version_number.
  destruct (objects_get_Ok_elem _ _ _ _ Hget) as [_ Hhead].
  rewrite (is_head_of_to_key _ _ Hhead), Hget. reflexivity.
Qed.

Lemma next_version_number_first table v key :
  to_key v = Ok key →
  objects_get MRecordSchema (is_head_of v) table
    = Raise (DoesNotExist MRecordSchema) →
  next_version_number table v = Ok 1.
Proof. unfold next_version_number. intros -> ->. reflexivity. Qed.



(** The number depends on the table alone: two calls that read the same
    table, with no write between them, get the same number. *)
Lemma next_version_number_same_table table v n1 n2 :
  next_version_number table v = Ok n1 →
  next_version_number table v = Ok n2 →
  n1 = n2.
Proof. intros H1 H2. rewrite H1 in H2. by injection H2. Qed.

Lemma get_serializer_create table args d rest v :
  d !! "record_type" = Some v →
  get_serializer table create args (mkKwargs (Some (Dict d)) rest)
  = n ← next_version_number table v;
    Ok (mkSerializer args
          (mkKwargs (Some (Dict (<["version" := PInt n]> d))) rest)).
Proof.
  intros Hv. unfold get_serializer. simpl. rewrite Hv.
  rewrite bool_decide_eq_true_2 by (by eexists). simpl.
  destruct (next_version_number table v); reflexivity.
Qed.

(** A form-encoded body: the number is computed, then the assignment to the
    immutable [QueryDict] raises. *)
Lemma get_serializer_immutable table args d rest v n :
  d !! "record_type" = Some v →
  next_version_number table v = Ok n →
  get_serializer table create args (mkKwargs (Some (QueryDict d)) rest)
  = Raise AttributeError.
Proof.
  intros Hv Hn. unfold get_serializer. simpl. rewrite Hv.
  rewrite bool_decide_eq_true_2 by (by eexists). simpl.
  rewrite Hn. reflexivity.
Qed.

End GetSerializer.

(** ** The schema store *)

Section SchemaStoreFacts.
Import SchemaStore.
Variable well_formed : pyval → bool.
Variable filter_queryset :
  gmap string pyval → list RecordSchema → list RecordSchema.

Lemma fresh_pk_gt table r : r ∈ table → schema_pk r < fresh_pk table.
Proof.
  unfold fresh_pk. induction table as [|r' l IH]; intros Hin.
  - by apply elem_of_nil in Hin.
  - rewrite fmap_cons. simpl. apply elem_of_cons in Hin as [->|Hin].
    + lia.
    + specialize (IH Hin). lia.
Qed.

Lemma filter_none {A} (P : A → Prop) {Pdec : ∀ x, Decision (P x)}
    (l : list A) :
  (∀ x, x ∈ l → ¬ P x) → filter P l = [].
Proof.
  induction l as [|x l IH]; intros Hno; [reflexivity|].
  rewrite filter_cons_False by (apply Hno; left).
  apply IH. intros y Hy. apply Hno. by right.
Qed.

Lemma is_head_of_int rt r :
  is_head_of (PInt rt) r ↔ next_version r = None ∧ record_type r = rt.
Proof. unfold is_head_of. simpl. split; intros [H1 H2]; split; congruence. Qed.

Lemma heads_of_chain rt table :
  filter (is_head_of (PInt rt)) table
  = filter (λ r, next_version r = None) (chain rt table).
Proof.
  unfold chain. rewrite list_filter_filter.
  apply list_filter_iff. intros r. apply is_head_of_int.
Qed.

Lemma chain_app rt t1 t2 : chain rt (t1 ++ t2) = chain rt t1 ++ chain rt t2.
Proof. apply filter_app. Qed.

Lemma chain_set_next_version rt pk n table :
  chain rt (set_next_version pk n table)
  = set_next_version pk n (chain rt table).
Proof.
  unfold chain, set_next_version.
  induction table as [|r l IH]; [reflexivity|].
  rewrite fmap_cons.
  destruct (decide (record_type r = rt)) as [Hr|Hr].
  - rewrite (filter_cons_True _ r) by exact Hr.
    rewrite filter_cons_True by (destruct (decide (schema_pk r = pk)); exact Hr).
    rewrite fmap_cons, IH. reflexivity.
  - rewrite (filter_cons_False _ r) by exact Hr.
    rewrite filter_cons_False by (destruct (decide (schema_pk r = pk)); exact Hr).
    exact IH.
Qed.

(** After the link is written, the rows that still have a null
    [next_version] are those that had one and are not the linked row. *)
Lemma heads_set_next_version v pk n table :
  filter (is_head_of v) (set_next_version pk n table)
  = filter (λ r, schema_pk r ≠ pk) (filter (is_head_of v) table).
Proof.
  unfold set_next_version.
  induction table as [|r l IH]; [reflexivity|].
  rewrite fmap_cons.
  destruct (decide (schema_pk r = pk)) as [Hpk|Hpk].
  - rewrite filter_cons_False by (intros [_ H]; discriminate H).
    rewrite IH. destruct (decide (is_head_of v r)) as [Hh|Hh].
    + rewrite (filter_cons_True _ r) by exact Hh.
      rewrite filter_cons_False by (intros H; exact (H Hpk)). reflexivity.
    + rewrite (filter_cons_False _ r) by exact Hh. reflexivity.
  - destruct (decide (is_head_of v r)) as [Hh|Hh].
    + rewrite !(filter_cons_True _ r) by exact Hh.
      rewrite filter_cons_True by exact Hpk. rewrite IH. reflexivity.
    + rewrite !(filter_cons_False _ r) by exact Hh. exact IH.
Qed.

Lemma set_next_version_cons pk n r table :
  set_next_version pk n (r :: table)
  = (if decide (schema_pk r = pk) then with_next_version r (Some n) else r)
      :: set_next_version pk n table.
Proof. reflexivity. Qed.

Lemma set_next_version_lookup pk n table i :
  set_next_version pk n table !! i
  = (λ r, if decide (schema_pk r = pk)
          then with_next_version r (Some n) else r) <$> table !! i.
Proof. unfold set_next_version. apply list_lookup_fmap. Qed.

(** *** What one creation does *)

Lemma post_data_lookup rt doc :
  post_data rt doc !! "record_type" = Some (PInt rt)
  ∧ post_data rt doc !! "schema" = Some doc.
Proof.
  unfold post_data. split.
  - apply lookup_insert_eq.
  - rewrite lookup_insert_ne by discriminate. apply lookup_insert_eq.
Qed.

Lemma createSchema_unfold table d rt doc :
  d !! "record_type" = Some (PInt rt) →
  d !! "schema" = Some doc →
  well_formed doc = true →
  createSchema well_formed table d
  = n ← RecordSchemaViewSet.next_version_number table (PInt rt);
    save table (mkValidated rt n doc).
Proof.
  intros Hrt Hdoc Hwf. unfold createSchema.
  rewrite (get_serializer_create _ _ _ _ _ Hrt).
  destruct (RecordSchemaViewSet.next_version_number table (PInt rt))
    as [n|e]; simpl; [|reflexivity].
  unfold is_valid. simpl.
  rewrite lookup_insert_ne by discriminate. rewrite Hrt.
  rewrite lookup_insert_eq.
  rewrite lookup_insert_ne by discriminate. rewrite Hdoc, Hwf.
  reflexivity.
Qed.

Lemma createSchema_head table d rt doc head :
  d !! "record_type" = Some (PInt rt) →
  d !! "schema" = Some doc →
  well_formed doc = true →
  objects_get MRecordSchema (is_head_of (PInt rt)) table = Ok head →
  createSchema well_formed table d
  = Ok (mkRecordSchema (fresh_pk table) rt (version head + 1) doc None,
        set_next_version (schema_pk head) (fresh_pk table) table
          ++ [mkRecordSchema (fresh_pk table) rt (version head + 1) doc None]).
Proof.
  intros Hrt Hdoc Hwf Hhead.
  rewrite (createSchema_unfold _ _ _ _ Hrt Hdoc Hwf).
  rewrite (next_version_number_head _ _ _ Hhead). simpl.
  unfold save. simpl. rewrite Hhead. reflexivity.
Qed.

Lemma createSchema_first table d rt doc :
  d !! "record_type" = Some (PInt rt) →
  d !! "schema" = Some doc →
  well_formed doc = true →
  objects_get MRecordSchema (is_head_of (PInt rt)) table
    = Raise (DoesNotExist MRecordSchema) →
  createSchema well_formed table d
  = Ok (mkRecordSchema (fresh_pk table) rt 1 doc None,
        table ++ [mkRecordSchema (fresh_pk table) rt 1 doc None]).
Proof.
  intros Hrt Hdoc Hwf Hnone.
  rewrite (createSchema_unfold _ _ _ _ Hrt Hdoc Hwf).
  rewrite (next_version_number_first _ (PInt rt) (Some rt) eq_refl Hnone). simpl.
  unfold save. simpl. rewrite Hnone. reflexivity.
Qed.

(** Every successful creation has one of two shapes. *)
Lemma createSchema_Ok_inv table d new table' :
  createSchema well_formed table d = Ok (new, table') →
  next_version new = None
  ∧ schema_pk new = fresh_pk table
  ∧ ((∃ head,
        objects_get MRecordSchema (is_head_of (PInt (record_type new))) table
          = Ok head
        ∧ table' = set_next_version (schema_pk head) (schema_pk new) table
                     ++ [new])
     ∨ (filter (is_head_of (PInt (record_type new))) table = []
        ∧ table' = table ++ [new])).
Proof.
  unfold createSchema. intros H.
  destruct (RecordSchemaViewSet.get_serializer table create []
              (mkKwargs (Some (Dict d)) ∅)) as [s|e]; [|discriminate].
  simpl in H. destruct (is_valid well_formed s) as [v|e]; [|discriminate].
  simpl in H. unfold save in H.
  destruct (objects_get MRecordSchema (is_head_of (PInt (v_record_type v)))
              table) as [head|e] eqn:Hget.
  - injection H as <- <-. simpl. repeat split; try reflexivity.
    left. exists head. split; [exact Hget|reflexivity].
  - destruct e as [[]| | | | | | |]; try discriminate.
    injection H as <- <-. simpl. repeat split; try reflexivity.
    right. split; [|reflexivity].
    by apply (objects_get_DoesNotExist MRecordSchema).
Qed.
End SchemaStoreFacts.

(** *** Chains *)

Section SchemaChain.
Import SchemaStore.
Variable well_formed : pyval → bool.

Lemma linked_chain_heads rt v pds :
  filter (λ r, next_version r = None) (linked_chain rt v pds)
  = match last pds with
    | None => []
    | Some pd =>
        [mkRecordSchema pd.1 rt (v + Z.of_nat (length pds) - 1) pd.2 None]
    end.
Proof.
  revert v. induction pds as [|pd [|pd2 rest] IH]; intros v.
  - reflexivity.
  - simpl. rewrite filter_cons_True by reflexivity.
    replace (v + Z.of_nat 1 - 1) with v by lia. reflexivity.
  - change (linked_chain rt v (pd :: pd2 :: rest))
      with (mkRecordSchema pd.1 rt v pd.2 (Some pd2.1)
              :: linked_chain rt (v + 1) (pd2 :: rest)).
    rewrite filter_cons_False by discriminate.
    rewrite IH. change (last (pd :: pd2 :: rest)) with (last (pd2 :: rest)).
    destruct (last (pd2 :: rest)); [|reflexivity].
    f_equal. f_equal. simpl length. lia.
Qed.

Lemma linked_chain_snoc rt v pds pd :
  NoDup (fst <$> pds) →
  linked_chain rt v (pds ++ [pd])
  = match last pds with
    | None => [mkRecordSchema pd.1 rt v pd.2 None]
    | Some lst =>
        set_next_version lst.1 pd.1 (linked_chain rt v pds)
          ++ [mkRecordSchema pd.1 rt (v + Z.of_nat (length pds)) pd.2 None]
    end.
Proof.
  revert v. induction pds as [|p1 [|p2 rest] IH]; intros v Hnd.
  - reflexivity.
  - simpl. unfold set_next_version. simpl.
    rewrite decide_True by reflexivity. reflexivity.
  - change (linked_chain rt v ((p1 :: p2 :: rest) ++ [pd]))
      with (mkRecordSchema p1.1 rt v p1.2 (Some p2.1)
              :: linked_chain rt (v + 1) ((p2 :: rest) ++ [pd])).
    assert (Hp1 : p1.1 ∉ fst <$> p2 :: rest)
      by (rewrite fmap_cons in Hnd; by apply NoDup_cons in Hnd as [? _]).
    assert (Hnd2 : NoDup (fst <$> p2 :: rest))
      by (rewrite fmap_cons in Hnd; by apply NoDup_cons in Hnd as [_ ?]).
    rewrite (IH (v + 1) Hnd2).
    change (last (p1 :: p2 :: rest)) with (last (p2 :: rest)).
    destruct (last (p2 :: rest)) as [lst|] eqn:Hlast.
    + change (linked_chain rt v (p1 :: p2 :: rest))
        with (mkRecordSchema p1.1 rt v p1.2 (Some p2.1)
                :: linked_chain rt (v + 1) (p2 :: rest)).
      rewrite set_next_version_cons.
      destruct (decide (schema_pk (mkRecordSchema p1.1 rt v p1.2 (Some p2.1))
                        = lst.1)) as [Heq|_].
      * exfalso. apply Hp1. simpl in Heq. rewrite Heq.
        apply list_elem_of_fmap. exists lst. split; [reflexivity|].
        apply last_Some in Hlast as [l' ->].
        apply elem_of_app. right. apply list_elem_of_here.
      * rewrite <- app_comm_cons. f_equal. f_equal. f_equal. f_equal.
        simpl length. lia.
    + apply last_None in Hlast. discriminate.
Qed.

Lemma linked_chain_pks rt v pds :
  schema_pk <$> linked_chain rt v pds = fst <$> pds.
Proof.
  revert v. induction pds as [|pd rest IH]; intros v; [reflexivity|].
  cbn [linked_chain]. rewrite !fmap_cons. simpl. f_equal. apply IH.
Qed.

Lemma linked_chain_lookup rt v pds (i : nat) r :
  linked_chain rt v pds !! i = Some r →
  ∃ pd, pds !! i = Some pd
        ∧ r = mkRecordSchema pd.1 rt (v + Z.of_nat i) pd.2
                (fst <$> pds !! S i).
Proof.
  revert v i. induction pds as [|pd rest IH]; intros v i Hi; [done|].
  destruct i as [|i].
  - injection Hi as <-. exists pd. split; [reflexivity|].
    replace (v + Z.of_nat 0) with v by lia. simpl.
    destruct rest; reflexivity.
  - simpl in Hi. apply IH in Hi as (pd' & Hpd' & ->).
    exists pd'. split; [exact Hpd'|].
    replace (v + 1 + Z.of_nat i) with (v + Z.of_nat (S i)) by lia. reflexivity.
Qed.

Lemma chained_create rt table pds doc :
  chained rt table pds →
  well_formed doc = true →
  ∃ new table',
    createSchema well_formed table (post_data rt doc) = Ok (new, table')
    ∧ chained rt table' (pds ++ [(fresh_pk table, doc)]).
Proof.
  intros [Hchain Hnd] Hwf.
  destruct (post_data_lookup rt doc) as [Hrt Hdoc].
  assert (Hfresh : fresh_pk table ∉ fst <$> pds).
  { rewrite <- (linked_chain_pks rt 1), <- Hchain.
    intros (r & Hpk & Hr)%list_elem_of_fmap.
    apply list_elem_of_filter in Hr as [_ Hr].
    apply fresh_pk_gt in Hr. lia. }
  assert (Hnd' : NoDup (fst <$> pds ++ [(fresh_pk table, doc)])).
  { rewrite fmap_app. apply NoDup_app. repeat split.
    - exact Hnd.
    - intros x Hx Hx'. simpl in Hx'. apply list_elem_of_singleton in Hx'.
      subst x. exact (Hfresh Hx).
    - simpl. apply NoDup_singleton. }
  pose proof (heads_of_chain rt table) as Hheads.
  rewrite Hchain, linked_chain_heads in Hheads.
  pose proof (linked_chain_snoc rt 1 pds (fresh_pk table, doc) Hnd) as Hsnoc.
  destruct (last pds) as [lst|] eqn:Hlast.
  - apply (objects_get_Ok MRecordSchema) in Hheads.
    rewrite (createSchema_head _ _ _ _ _ _ Hrt Hdoc Hwf Hheads).
    eexists _, _. split; [reflexivity|]. split; [|exact Hnd'].
    rewrite chain_app, chain_set_next_version, Hchain, Hsnoc. simpl.
    f_equal. unfold chain. rewrite filter_cons_True by reflexivity.
    rewrite filter_nil. do 2 f_equal. lia.
  - apply (objects_get_DoesNotExist MRecordSchema) in Hheads.
    rewrite (createSchema_first _ _ _ _ _ Hrt Hdoc Hwf Hheads).
    eexists _, _. split; [reflexivity|]. split; [|exact Hnd'].
    apply last_None in Hlast. subst pds.
    rewrite chain_app, Hchain. simpl.
    unfold chain. rewrite filter_cons_True by reflexivity.
    rewrite filter_nil. reflexivity.
Qed.

Lemma chained_create_all rt docs :
  Forall (λ doc, well_formed doc = true) docs →
  ∀ table pds,
    chained rt table pds →
    ∃ table' pds',
      create_all well_formed rt docs table = Ok table'
      ∧ chained rt table' (pds ++ pds')
      ∧ snd <$> pds' = docs.
Proof.
  induction 1 as [|doc docs Hwf _ IH]; intros table pds Hinv.
  - exists table, []. rewrite app_nil_r. done.
  - destruct (chained_create rt table pds doc Hinv Hwf)
      as (new & table1 & Hcreate & Hinv1).
    destruct (IH table1 _ Hinv1) as (table' & pds' & Hall & Hinv' & Hdocs).
    exists table', ((fresh_pk table, doc) :: pds'). split; [|split].
    + cbn [create_all]. rewrite Hcreate. exact Hall.
    + rewrite <- app_assoc in Hinv'. exact Hinv'.
    + rewrite fmap_cons, Hdocs. reflexivity.
Qed.
End SchemaChain.

(** *** Claims on the schema store *)

Section SchemaStoreClaims.
Import SchemaStore.
Variable well_formed : pyval → bool.
Variable filter_queryset :
  gmap string pyval → list RecordSchema → list RecordSchema.

Lemma has_action_SchemaViewSet act :
  has_action SchemaViewSet_bases act
  = match act with
    | list_action | create | retrieve => true
    | update | partial_update | destroy => false
    end.
Proof. destruct act; reflexivity. Qed.

(** A request to a [SchemaViewSet] leaves the table as it was, or is a
    successful [createSchema]. *)
Lemma dispatch_SchemaViewSet_cases table rq :
  (dispatch well_formed filter_queryset SchemaViewSet_bases table rq).2
    = table
  ∨ ∃ new,
      createSchema well_formed table (req_data rq)
      = Ok (new, (dispatch well_formed filter_queryset SchemaViewSet_bases
                    table rq).2).
Proof.
  unfold dispatch. rewrite has_action_SchemaViewSet.
  destruct (req_action rq); simpl; try (left; reflexivity).
  - destruct (createSchema well_formed table (req_data rq))
      as [[new table']|e]; [|left; reflexivity].
    right. exists new. reflexivity.
  - destruct (objects_get MRecordSchema (λ r, schema_pk r = req_pk rq) table);
      left; reflexivity.
Qed.

(** C1: for data naming record type [rt] with a well-formed document,
    [createSchema] looks up the row of [rt] whose [next_version] is null.
    When there is one, the new row has that head's version plus one and the
    head's [next_version] becomes the new row's key; when there is none the
    new row has version 1.  So [N] creations in sequence for a type that
    had no schema leave exactly [N] rows of that type, with versions 1 to
    [N] in order, distinct keys, each row's [next_version] the key of the
    row after it and null on the last. *)
Theorem createSchema_versions_and_chain :
  (∀ table d rt doc,
     d !! "record_type" = Some (PInt rt) →
     d !! "schema" = Some doc →
     well_formed doc = true →
     (∀ head,
        objects_get MRecordSchema (is_head_of (PInt rt)) table = Ok head →
        ∃ new table',
          createSchema well_formed table d = Ok (new, table')
          ∧ version new = version head + 1
          ∧ record_type new = rt ∧ schema new = doc
          ∧ next_version new = None
          ∧ table' = set_next_version (schema_pk head) (schema_pk new) table
                       ++ [new]
          ∧ ∀ i : nat, table !! i = Some head →
              table' !! i
              = Some (with_next_version head (Some (schema_pk new))))
     ∧ (objects_get MRecordSchema (is_head_of (PInt rt)) table
          = Raise (DoesNotExist MRecordSchema) →
        ∃ new,
          createSchema well_formed table d = Ok (new, table ++ [new])
          ∧ version new = 1
          ∧ record_type new = rt ∧ schema new = doc
          ∧ next_version new = None))
  ∧ (∀ table rt docs,
       chain rt table = [] →
       Forall (λ doc, well_formed doc = true) docs →
       ∃ table',
         create_all well_formed rt docs table = Ok table'
         ∧ length (chain rt table') = length docs
         ∧ NoDup (schema_pk <$> chain rt table')
         ∧ ∀ (i : nat) r,
             chain rt table' !! i = Some r →
             version r = Z.of_nat i + 1
             ∧ docs !! i = Some (schema r)
             ∧ next_version r = schema_pk <$> chain rt table' !! S i).
Proof.
  split.
  - intros table d rt doc Hrt Hdoc Hwf. split.
    + intros head Hhead. eexists _, _.
      split; [exact (createSchema_head _ _ _ _ _ _ Hrt Hdoc Hwf Hhead)|].
      simpl. repeat split.
      intros i Hi. rewrite lookup_app_l by
        (unfold set_next_version; rewrite length_fmap;
         by apply lookup_lt_Some in Hi).
      rewrite set_next_version_lookup, Hi. simpl.
      rewrite decide_True by reflexivity. reflexivity.
    + intros Hnone. eexists.
      split; [exact (createSchema_first _ _ _ _ _ Hrt Hdoc Hwf Hnone)|].
      simpl. repeat split.
  - intros table rt docs Hempty Hwf.
    assert (Hinit : chained rt table []) by (split; [exact Hempty|constructor]).
    destruct (chained_create_all well_formed rt docs Hwf table [] Hinit)
      as (table' & pds & Hall & [Hchain Hnd] & Hdocs).
    simpl in Hchain, Hnd.
    exists table'. split; [exact Hall|].
    assert (Hpks : schema_pk <$> chain rt table' = fst <$> pds)
      by (rewrite Hchain; apply linked_chain_pks).
    split; [|split].
    + rewrite <- Hdocs, length_fmap, <- (length_fmap fst), <- Hpks.
      symmetry. apply length_fmap.
    + rewrite Hpks. exact Hnd.
    + intros i r Hr.
      rewrite <- list_lookup_fmap, Hpks, list_lookup_fmap.
      rewrite Hchain in Hr.
      apply linked_chain_lookup in Hr as (pd & Hpd & ->). simpl.
      split; [lia|]. split; [|reflexivity].
      rewrite <- Hdocs, list_lookup_fmap, Hpd. reflexivity.
Qed.

Lemma createSchema_keeps_one_head table d new table' :
  at_most_one_head table →
  createSchema well_formed table d = Ok (new, table') →
  at_most_one_head table'.
Proof.
  intros Hinv Hcreate rt.
  destruct (createSchema_Ok_inv _ _ _ _ _ Hcreate)
    as (Hnew & _ & [(head & Hget & ->)|[Hnone ->]]).
  - rewrite filter_app, heads_set_next_version, length_app.
    destruct (decide (rt = record_type new)) as [->|Hrt].
    + apply (objects_get_Ok MRecordSchema) in Hget. rewrite Hget.
      rewrite filter_cons_False by (intros H; by apply H).
      rewrite filter_nil. simpl.
      pose proof (length_filter (is_head_of (PInt (record_type new))) [new]).
      simpl in *. lia.
    + rewrite (filter_cons_False _ new)
        by (intros [Heq _]; injection Heq as Heq; exact (Hrt Heq)).
      rewrite filter_nil. simpl.
      pose proof (length_filter (λ r, schema_pk r ≠ schema_pk head)
                    (filter (is_head_of (PInt rt)) table)).
      specialize (Hinv rt). lia.
  - rewrite filter_app, length_app.
    destruct (decide (rt = record_type new)) as [->|Hrt].
    + rewrite Hnone.
      pose proof (length_filter (is_head_of (PInt (record_type new))) [new]).
      simpl in *. lia.
    + rewrite (filter_cons_False _ new)
        by (intros [Heq _]; injection Heq as Heq; exact (Hrt Heq)).
      rewrite filter_nil. simpl. specialize (Hinv rt). lia.
Qed.

(** C2: chain-head uniqueness (no record type has two rows with a null
    [next_version]) is kept by every successful [createSchema], by every
    request to the schema viewset, and holds after any sequence of
    requests, from a table that satisfies it and so from the empty one. *)
Theorem at_most_one_head_invariant :
  (∀ table d new table',
     at_most_one_head table →
     createSchema well_formed table d = Ok (new, table') →
     at_most_one_head table')
  ∧ (∀ table rq,
       at_most_one_head table →
       at_most_one_head
         (dispatch well_formed filter_queryset SchemaViewSet_bases
            table rq).2)
  ∧ (∀ rqs table,
       at_most_one_head table →
       at_most_one_head
         (run well_formed filter_queryset SchemaViewSet_bases table rqs))
  ∧ (∀ rqs,
       at_most_one_head
         (run well_formed filter_queryset SchemaViewSet_bases [] rqs)).
Proof.
  assert (Hstep : ∀ table rq,
    at_most_one_head table →
    at_most_one_head
      (dispatch well_formed filter_queryset SchemaViewSet_bases table rq).2).
  { intros table rq Hinv.
    destruct (dispatch_SchemaViewSet_cases table rq) as [->|[new Hcreate]].
    - exact Hinv.
    - exact (createSchema_keeps_one_head _ _ _ _ Hinv Hcreate). }
  assert (Hrun : ∀ rqs table,
    at_most_one_head table →
    at_most_one_head
      (run well_formed filter_queryset SchemaViewSet_bases table rqs)).
  { induction rqs as [|rq rqs IH]; intros table Hinv; [exact Hinv|].
    apply IH, Hstep, Hinv. }
  repeat split.
  - exact createSchema_keeps_one_head.
  - exact Hstep.
  - exact Hrun.
  - intros rqs. apply Hrun. intros rt. simpl. lia.
Qed.
End SchemaStoreClaims.

Section SchemaImmutability.
Import SchemaStore.
Variable well_formed : pyval → bool.
Variable filter_queryset :
  gmap string pyval → list RecordSchema → list RecordSchema.

Lemma same_document_refl r : same_document r r.
Proof. repeat split. Qed.

Lemma same_document_trans r1 r2 r3 :
  same_document r1 r2 → same_document r2 r3 → same_document r1 r3.
Proof.
  unfold same_document. intros (? & ? & ? & ?) (? & ? & ? & ?).
  repeat split; congruence.
Qed.

Lemma set_next_version_same_document pk n table (i : nat) r :
  table !! i = Some r →
  ∃ r', set_next_version pk n table !! i = Some r' ∧ same_document r r'.
Proof.
  intros Hi. rewrite set_next_version_lookup, Hi. simpl.
  destruct (decide (schema_pk r = pk)); eexists; split;
    try reflexivity; repeat split.
Qed.

Lemma dispatch_SchemaViewSet_same_document table rq (i : nat) r :
  table !! i = Some r →
  ∃ r',
    (dispatch well_formed filter_queryset SchemaViewSet_bases table rq).2 !! i
      = Some r'
    ∧ same_document r r'.
Proof.
  intros Hi.
  destruct (dispatch_SchemaViewSet_cases well_formed filter_queryset table rq)
    as [->|[new Hcreate]].
  - exists r. split; [exact Hi|apply same_document_refl].
  - destruct (createSchema_Ok_inv _ _ _ _ _ Hcreate)
      as (_ & _ & [(head & _ & ->)|[_ ->]]).
    + destruct (set_next_version_same_document
                  (schema_pk head) (schema_pk new) table i r Hi)
        as (r' & Hr' & Hsame).
      exists r'. split; [|exact Hsame].
      rewrite lookup_app_l; [exact Hr'|]. by apply lookup_lt_Some in Hr'.
    + exists r. split; [|apply same_document_refl].
      rewrite lookup_app_l; [exact Hi|]. by apply lookup_lt_Some in Hi.
Qed.

(** C8: the schema viewset answers the list, create and retrieve actions
    and no other; and whatever requests it is sent, every row of the table
    stays at its place with its key, record type, version and schema
    document (only its [next_version] link may be written). *)
Theorem schema_documents_immutable :
  (∀ act,
     has_action SchemaViewSet_bases act = true
     ↔ act = list_action ∨ act = create ∨ act = retrieve)
  ∧ (∀ table rq,
       has_action SchemaViewSet_bases (req_action rq) = false →
       dispatch well_formed filter_queryset SchemaViewSet_bases table rq
       = (MethodNotAllowed, table))
  ∧ (∀ rqs table (i : nat) r,
       table !! i = Some r →
       ∃ r',
         run well_formed filter_queryset SchemaViewSet_bases table rqs !! i
           = Some r'
         ∧ same_document r r').
Proof.
  split; [|split].
  - intros act. rewrite has_action_SchemaViewSet.
    destruct act; split; intros H; try discriminate; try reflexivity;
      try (destruct H as [H|[H|H]]; discriminate); tauto.
  - intros table rq Hno. unfold dispatch. rewrite Hno. reflexivity.
  - induction rqs as [|rq rqs IH]; intros table i r Hi.
    + exists r. split; [exact Hi|apply same_document_refl].
    + destruct (dispatch_SchemaViewSet_same_document table rq i r Hi)
        as (r1 & Hr1 & Hsame1).
      destruct (IH _ i r1 Hr1) as (r' & Hr' & Hsame').
      exists r'. split; [exact Hr'|].
      exact (same_document_trans _ _ _ Hsame1 Hsame').
Qed.
End SchemaImmutability.

(** The restriction is what protects the documents: a viewset with the
    bases of [ModelViewSet] rewrites a stored schema on an update, where the
    schema viewset answers 405 and leaves the table alone. *)
Lemma ModelViewSet_update_rewrites_schema :
  let row := mkRecordSchema 1 1 1 (PStr "old") None in
  let rq := SchemaStore.mkRequest update 1 (<["schema" := PStr "new"]> ∅) in
  SchemaStore.dispatch (λ _, true) (λ _ t, t) ModelViewSet_bases [row] rq
    = (SchemaStore.Updated (mkRecordSchema 1 1 1 (PStr "new") None),
       [mkRecordSchema 1 1 1 (PStr "new") None])
  ∧ SchemaStore.dispatch (λ _, true) (λ _ t, t) SchemaViewSet_bases [row] rq
    = (SchemaStore.MethodNotAllowed, [row]).
Proof. split; reflexivity. Qed.

(** *** Instances *)



Lemma createSchema_versions_and_chain_witness :
  ∃ table',
    SchemaStore.create_all (λ _, true) 5 [PStr "a"; PStr "b"; PStr "c"] []
      = Ok table'
    ∧ length (SchemaStore.chain 5 table') = 3%nat
    ∧ NoDup (schema_pk <$> SchemaStore.chain 5 table')
    ∧ ∀ (i : nat) r,
        SchemaStore.chain 5 table' !! i = Some r →
        version r = Z.of_nat i + 1
        ∧ [PStr "a"; PStr "b"; PStr "c"] !! i = Some (schema r)
        ∧ next_version r = schema_pk <$> SchemaStore.chain 5 table' !! S i.
Proof.
  apply (proj2 (createSchema_versions_and_chain (λ _, true))).
  - reflexivity.
  - repeat constructor.
Defined.

Lemma at_most_one_head_invariant_witness :
  SchemaStore.at_most_one_head
    (SchemaStore.run (λ _, true) (λ _ t, t) SchemaViewSet_bases
       [mkRecordSchema 1 5 1 (PStr "a") None]
       [SchemaStore.mkRequest create 0 (post_data 5 (PStr "b"));
        SchemaStore.mkRequest create 0 (post_data 6 (PStr "c"))]).
Proof.
  apply (proj1 (proj2 (proj2 (at_most_one_head_invariant
                                (λ _, true) (λ _ t, t))))).
  intros rt.
  exact (length_filter (is_head_of (PInt rt))
           [mkRecordSchema 1 5 1 (PStr "a") None]).
Defined.

Lemma schema_documents_immutable_witness :
  ∃ r',
    SchemaStore.run (λ _, true) (λ _ t, t) SchemaViewSet_bases
      [mkRecordSchema 1 5 1 (PStr "a") None]
      [SchemaStore.mkRequest create 0 (post_data 5 (PStr "b"));
       SchemaStore.mkRequest update 1 (<["schema" := PStr "z"]> ∅);
       SchemaStore.mkRequest destroy 1 ∅] !! 0%nat = Some r'
    ∧ SchemaStore.same_document (mkRecordSchema 1 5 1 (PStr "a") None) r'.
Proof.
  apply (proj2 (proj2 (schema_documents_immutable (λ _, true) (λ _ t, t)))).
  reflexivity.
Defined.

(** ** Two creations in flight *)

Section TwoCreations.
Import SchemaStore Interleaving.
Variable well_formed : pyval → bool.

(** The serializer a create builds on dictionary data. *)
Local Abbreviation built n d :=
  (mkSerializer [] (mkKwargs (Some (Dict (<["version" := PInt n]> d))) ∅)).

(** A creation is its read followed by its write on the same table. *)
Lemma createSchema_read_write t d :
  createSchema well_formed t d
  = s ← read_step t d; write_step well_formed t s.
Proof. reflexivity. Qed.








End TwoCreations.



(** ** RecordViewSet.toddow *)

Section Ordering.
Lemma nulls_last_le_total a b : nulls_last_le a b ∨ nulls_last_le b a.
Proof. destruct a, b; simpl; try tauto; lia. Qed.

Lemma nulls_last_le_antisym a b :
  nulls_last_le a b → nulls_last_le b a → a = b.
Proof. destruct a, b; simpl; try tauto; intros; f_equal; lia. Qed.

Lemma nulls_last_le_trans a b c :
  nulls_last_le a b → nulls_last_le b c → nulls_last_le a c.
Proof. destruct a, b, c; simpl; try tauto; lia. Qed.

#[global] Instance tod_dow_le_total : Total tod_dow_le.
Proof.
  intros k1 k2. unfold tod_dow_le.
  destruct (decide (k1.1 = k2.1)) as [E|NE].
  - destruct (nulls_last_le_total k1.2 k2.2); [left|right]; right; auto.
  - destruct (nulls_last_le_total k1.1 k2.1); [left|right]; left; auto.
Qed.

#[global] Instance tod_dow_le_trans : Transitive tod_dow_le.
Proof.
  intros x y z. unfold tod_dow_le.
  intros [[Hxy Hne]|[Hxy Hxy2]] [[Hyz Hne']|[Hyz Hyz2]].
  - left. split; [by eapply nulls_last_le_trans|].
    intros E. rewrite <- E in Hyz.
    exact (Hne (nulls_last_le_antisym _ _ Hxy Hyz)).
  - left. rewrite <- Hyz. auto.
  - left. rewrite Hxy. auto.
  - right. split; [congruence|by eapply nulls_last_le_trans].
Qed.

Lemma tod_dow_le_values (k1 k2 : Z * Z) :
  tod_dow_le (Some k1.1, Some k1.2) (Some k2.1, Some k2.2) →
  k1 ≠ k2 → tod_then_dow k1 k2.
Proof.
  destruct k1 as [a b], k2 as [c d]. unfold tod_dow_le, tod_then_dow. simpl.
  intros [[Hle Hne]|[Heq Hle]] Hk.
  - left. assert (a ≠ c) by congruence. lia.
  - right. injection Heq as ->. split; [reflexivity|].
    assert (b ≠ d) by congruence. lia.
Qed.

Lemma StronglySorted_strengthen {A} (R R' : relation A) (l : list A) :
  StronglySorted R l → NoDup l →
  (∀ x y, x ∈ l → y ∈ l → R x y → x ≠ y → R' x y) →
  StronglySorted R' l.
Proof.
  induction 1 as [|x l Hs IH Hall]; intros Hnd HR; constructor.
  - apply IH.
    + by apply NoDup_cons in Hnd as [_ ?].
    + intros a b Ha Hb. apply HR; by right.
  - apply NoDup_cons in Hnd as [Hx _].
    rewrite Forall_forall in Hall |- *. intros y Hy.
    apply HR; [by left|by right|by apply Hall|].
    intros ->. exact (Hx Hy).
Qed.

Lemma length_filter_fmap {A B} (f : A → B) (P : B → Prop)
    {Pdec : ∀ y, Decision (P y)} (l : list A) :
  length (filter P (f <$> l)) = length (filter (λ x, P (f x)) l).
Proof.
  induction l as [|x l IH]; [reflexivity|].
  rewrite fmap_cons. destruct (decide (P (f x))) as [HP|HP].
  - rewrite (filter_cons_True P) by exact HP.
    rewrite (filter_cons_True (λ x, P (f x))) by exact HP.
    simpl. by rewrite IH.
  - rewrite (filter_cons_False P) by exact HP.
    rewrite (filter_cons_False (λ x, P (f x))) by exact HP.
    exact IH.
Qed.

Lemma case_when_xrange field a b :
  a ≤ field < b → case_when field (xrange a b) = Some field.
Proof.
  intros Hr. unfold case_when, xrange.
  assert (Hin : field ∈ filter (λ x, field = x) (seqZ a (b - a))).
  { apply list_elem_of_filter. split; [reflexivity|].
    apply elem_of_seqZ. lia. }
  destruct (filter (λ x, field = x) (seqZ a (b - a))) as [|y l] eqn:E.
  - by apply elem_of_nil in Hin.
  - assert (Hy : y ∈ filter (λ x, field = x) (seqZ a (b - a)))
      by (rewrite E; left).
    apply list_elem_of_filter in Hy as [-> _]. reflexivity.
Qed.

Lemma case_when_none field a b :
  ¬ (a ≤ field < b) → case_when field (xrange a b) = None.
Proof.
  intros Hr. unfold case_when, xrange.
  rewrite filter_none; [reflexivity|].
  intros x Hx <-. apply elem_of_seqZ in Hx. lia.
Qed.
End Ordering.

Section Toddow.
Variable QuerySet : Type.
Variable get_queryset : QuerySet.
Variable filter_backends : list (HttpRequest → QuerySet → QuerySet).
Variable fetch : QuerySet → list Record_.
Variable week_day : Z → Z.
Variable hour : Z → Z.
Hypothesis week_day_range : ∀ t, 1 ≤ week_day t ≤ 7.
Hypothesis hour_range : ∀ t, 0 ≤ hour t ≤ 23.

Local Abbreviation key := (RecordViewSet.tod_dow_of week_day hour).
Local Abbreviation some_pair := (λ k : Z * Z, (Some k.1, Some k.2)).
Local Abbreviation unwrap :=
  (λ x : option Z * option Z, (default 0 x.1, default 0 x.2)).

Lemma values_tod_dow_in_range rows :
  RecordViewSet.values_tod_dow week_day hour rows = some_pair <$> (key <$> rows).
Proof.
  unfold RecordViewSet.values_tod_dow. rewrite <- list_fmap_compose.
  apply list_fmap_ext. intros _ r _. simpl.
  unfold RecordViewSet.tod_case, RecordViewSet.dow_case.
  rewrite !case_when_xrange; [reflexivity| |].
  - pose proof (week_day_range (occurred_from r)). lia.
  - pose proof (hour_range (occurred_from r)). lia.
Qed.

Lemma count_tod_group_size k rows :
  RecordViewSet.count_tod (some_pair k) (some_pair <$> (key <$> rows))
  = RecordViewSet.group_size week_day hour k rows.
Proof.
  unfold RecordViewSet.count_tod, RecordViewSet.group_size. f_equal.
  rewrite !length_filter_fmap. f_equal.
  apply list_filter_iff. intros r. simpl. split.
  - intros [Heq _]. destruct k as [a b].
    unfold RecordViewSet.tod_dow_of in *. simpl in *.
    injection Heq as -> ->. reflexivity.
  - intros <-. split; [reflexivity|]. simpl. by eexists.
Qed.

Lemma elem_of_some_pairs x (ks : list (Z * Z)) :
  x ∈ some_pair <$> ks ↔ ∃ k, x = some_pair k ∧ k ∈ ks.
Proof. apply list_elem_of_fmap. Qed.

Lemma unwrap_some_pair (k : Z * Z) : unwrap (some_pair k) = k.
Proof. by destruct k. Qed.

(** The loop over [filter_backends] is the composition of the backends in
    the order of the tuple. *)
Lemma apply_filters_filtered request :
  RecordViewSet.apply_filters QuerySet get_queryset filter_backends request
  = filtered request filter_backends get_queryset.
Proof.
  unfold RecordViewSet.apply_filters. generalize get_queryset.
  induction filter_backends as [|backend rest IH]; intros q; [reflexivity|].
  simpl. apply IH.
Qed.

(** C3: [toddow] answers 200 and counts the records of the query set that
    every configured filter backend has been applied to, each on the result
    of the one before it (for the four backends of the view: the bounding
    box, the JSONB, the field and the date-range filter, in that order).
    The answer has one row per pair (hour of day, day of week) those records
    show, and no other row: the rows come ordered by [tod] and then [dow],
    strictly, each [tod] within 0..23 and each [dow] within 1..7, and each
    [count] is the number of filtered records of that pair, which is
    positive. *)
Theorem toddow_groups request :
  let rows := fetch (filtered request filter_backends get_queryset) in
  let response :=
    RecordViewSet.toddow QuerySet get_queryset filter_backends fetch
      week_day hour request in
  status response = HTTP_200_OK
  ∧ (∀ InBBoxFilter JsonBFilterBackend DjangoFilterBackend
       DateRangeFilterBackend,
       filter_backends
       = RecordViewSet_filter_backends InBBoxFilter JsonBFilterBackend
           DjangoFilterBackend DateRangeFilterBackend →
       rows = fetch (DateRangeFilterBackend request
                       (DjangoFilterBackend request
                          (JsonBFilterBackend request
                             (InBBoxFilter request get_queryset)))))
  ∧ ∃ ks : list (Z * Z),
      data response
      = (λ k, mkToddowRow (Some k.1) (Some k.2)
                (RecordViewSet.group_size week_day hour k rows)) <$> ks
      ∧ StronglySorted tod_then_dow ks
      ∧ (∀ k, k ∈ ks ↔ ∃ r, r ∈ rows ∧ key r = k)
      ∧ (∀ k, k ∈ ks →
           0 ≤ k.1 ≤ 23 ∧ 1 ≤ k.2 ≤ 7
           ∧ 0 < RecordViewSet.group_size week_day hour k rows).
Proof.
  intros rows response. split; [reflexivity|]. split.
  { intros b1 b2 b3 b4 Hb. subst rows. rewrite Hb. reflexivity. }
  subst response. unfold RecordViewSet.toddow. simpl.
  rewrite apply_filters_filtered. fold rows.
  unfold RecordViewSet.counted. rewrite values_tod_dow_in_range.
  set (pairs := key <$> rows).
  set (sorted := merge_sort tod_dow_le (remove_dups (some_pair <$> pairs))).
  assert (Hmem : ∀ x, x ∈ sorted ↔ ∃ k, x = some_pair k ∧ k ∈ pairs).
  { intros x. unfold sorted.
    rewrite merge_sort_Permutation, elem_of_remove_dups.
    apply elem_of_some_pairs. }
  assert (Hobs : ∀ k, k ∈ unwrap <$> sorted ↔ ∃ r, r ∈ rows ∧ key r = k).
  { intros k. rewrite list_elem_of_fmap. split.
    - intros (x & -> & (k' & -> & Hk')%Hmem).
      rewrite unwrap_some_pair.
      apply list_elem_of_fmap in Hk' as (r & -> & Hr). eauto.
    - intros (r & Hr & <-). exists (some_pair (key r)).
      rewrite unwrap_some_pair. split; [reflexivity|].
      apply Hmem. exists (key r). split; [reflexivity|].
      apply list_elem_of_fmap. eauto. }
  exists (unwrap <$> sorted). split; [|split; [|split]].
  - rewrite <- list_fmap_compose. apply Forall_fmap_ext_1, Forall_forall.
    intros x (k & -> & _)%Hmem. unfold compose. destruct k as [a b].
    cbn [fst snd default]. f_equal.
    exact (count_tod_group_size (a, b) rows).
  - apply (StronglySorted_fmap _
             (λ x y, tod_then_dow (unwrap x) (unwrap y))); [auto|].
    apply (StronglySorted_strengthen tod_dow_le).
    + apply (StronglySorted_merge_sort _).
    + unfold sorted. rewrite merge_sort_Permutation.
      apply NoDup_remove_dups.
    + intros x y (kx & -> & _)%Hmem (ky & -> & _)%Hmem Hle Hne.
      rewrite !unwrap_some_pair. apply tod_dow_le_values; [exact Hle|].
      intros ->. by apply Hne.
  - exact Hobs.
  - intros k (r & Hr & <-)%Hobs. simpl.
    split; [apply hour_range|]. split; [apply week_day_range|].
    unfold RecordViewSet.group_size.
    assert (Hin : r ∈ filter (λ r', key r' = key r) rows)
      by (apply list_elem_of_filter; auto).
    destruct (filter (λ r', key r' = key r) rows).
    + by apply elem_of_nil in Hin.
    + simpl. lia.
Qed.
End Toddow.

Lemma utc_week_day_range t : 1 ≤ utc_week_day t ≤ 7.
Proof.
  unfold utc_week_day.
  pose proof (Z.mod_pos_bound (t `div` 86400000000 + 4) 7). lia.
Qed.

Lemma utc_hour_range t : 0 ≤ utc_hour t ≤ 23.
Proof.
  unfold utc_hour. pose proof (Z.mod_pos_bound (t `div` 3600000000) 24). lia.
Qed.

(** The specification's example: two records in hour 0 of a Monday (day 2)
    and one in hour 13 of a Thursday (day 5) give two groups and no other. *)
Lemma toddow_example :
  data (RecordViewSet.toddow (list Record_)
          [mkRecord 1 1 (4 * 86400000000 + 600000000);
           mkRecord 2 1 (13 * 3600000000);
           mkRecord 3 1 (4 * 86400000000)]
          [] (λ q, q) utc_week_day utc_hour (mkHttpRequest ∅))
  = [mkToddowRow (Some 0) (Some 2) 2; mkToddowRow (Some 13) (Some 5) 1].
Proof. vm_compute. reflexivity. Qed.

(** Four stored records; the view is configured with a filter on the schema
    and a filter on the date.  The record of another schema and the record
    from before the epoch are filtered out, and the answer counts the two
    that remain. *)
Lemma toddow_groups_witness :
  let table := [mkRecord 1 1 (4 * 86400000000 + 600000000);
                mkRecord 2 2 (13 * 3600000000);
                mkRecord 3 1 (4 * 86400000000);
                mkRecord 4 1 (- 7 * 3600000000)] in
  let backends : list (HttpRequest → list Record_ → list Record_) :=
    [λ _ q, filter (λ r, record_schema r = 1) q;
     λ _ q, filter (λ r, 0 ≤ occurred_from r) q] in
  let rows := [mkRecord 1 1 (4 * 86400000000 + 600000000);
               mkRecord 3 1 (4 * 86400000000)] in
  (∀ t, 1 ≤ utc_week_day t ≤ 7) ∧ (∀ t, 0 ≤ utc_hour t ≤ 23)
  ∧ ∃ ks : list (Z * Z),
      data (RecordViewSet.toddow (list Record_) table backends (λ q, q)
              utc_week_day utc_hour (mkHttpRequest ∅))
      = (λ k, mkToddowRow (Some k.1) (Some k.2)
                (RecordViewSet.group_size utc_week_day utc_hour k rows)) <$> ks
      ∧ StronglySorted tod_then_dow ks
      ∧ (∀ k, k ∈ ks
              ↔ ∃ r, r ∈ rows
                     ∧ RecordViewSet.tod_dow_of utc_week_day utc_hour r = k)
      ∧ (∀ k, k ∈ ks →
           0 ≤ k.1 ≤ 23 ∧ 1 ≤ k.2 ≤ 7
           ∧ 0 < RecordViewSet.group_size utc_week_day utc_hour k rows).
Proof.
  intros table backends rows.
  split; [exact utc_week_day_range|]. split; [exact utc_hour_range|].
  exact (proj2 (proj2 (toddow_groups (list Record_) table backends (λ q, q)
                         utc_week_day utc_hour utc_week_day_range
                         utc_hour_range (mkHttpRequest ∅)))).
Defined.

(** The same request, evaluated: one group, hour 0 of day 2, of two
    records. *)
Lemma toddow_filtered_example :
  data (RecordViewSet.toddow (list Record_)
          [mkRecord 1 1 (4 * 86400000000 + 600000000);
           mkRecord 2 2 (13 * 3600000000);
           mkRecord 3 1 (4 * 86400000000);
           mkRecord 4 1 (- 7 * 3600000000)]
          [λ _ q, filter (λ r, record_schema r = 1) q;
           λ _ q, filter (λ r, 0 ≤ occurred_from r) q]
          (λ q, q) utc_week_day utc_hour (mkHttpRequest ∅))
  = [mkToddowRow (Some 0) (Some 2) 2].
Proof. vm_compute. reflexivity. Qed.

(** ** RecordTypeViewSet.recent_counts *)

Section RecentCounts.
Import RecordTypeViewSet.
Variable now : Z.
Variable records : list Record_.

Local Abbreviation window_count s days :=
  (count_between (now - timedelta_days days) now (record_set s records)).

Lemma add_count_present label c counts old :
  counts !! label = Some old →
  add_count label c counts = Ok (<[label := old + c]> counts).
Proof. unfold add_count. intros ->. reflexivity. Qed.

(** One pass over the items adds, to the count of every label among them,
    the schema's count for that label's window. *)
Lemma count_schema_spec rs items counts :
  NoDup items.*1 →
  (∀ l, l ∈ items.*1 → is_Some (counts !! l)) →
  ∃ counts',
    count_schema now rs items counts = Ok counts'
    ∧ ∀ l, counts' !! l
           = match (list_to_map items : gmap string Z) !! l with
             | Some d =>
                 (λ c, c + count_between (now - timedelta_days d) now rs)
                   <$> counts !! l
             | None => counts !! l
             end.
Proof.
  revert counts. induction items as [|[l0 d0] items IH]; intros counts Hnd Hdom.
  - exists counts. split; [reflexivity|]. intros l. simpl.
    rewrite lookup_empty. reflexivity.
  - rewrite fmap_cons in Hnd, Hdom. simpl in Hnd, Hdom.
    apply NoDup_cons in Hnd as [Hl0 Hnd].
    destruct (Hdom l0) as [old Hold]; [by left|].
    cbn [count_schema]. rewrite (add_count_present _ _ _ _ Hold). simpl.
    destruct (IH (<[l0 := old + count_between (now - timedelta_days d0) now rs]>
                    counts) Hnd) as (counts' & Hrun & Hlook).
    { intros l Hl. destruct (decide (l = l0)) as [->|Hne].
      - rewrite lookup_insert_eq. by eexists.
      - rewrite lookup_insert_ne by done. apply Hdom. by right. }
    exists counts'. split; [exact Hrun|].
    intros l. rewrite Hlook.
    destruct (decide (l = l0)) as [->|Hne].
    + rewrite (not_elem_of_list_to_map_1 _ _ Hl0).
      rewrite !lookup_insert_eq, Hold. reflexivity.
    + rewrite !(lookup_insert_ne _ l0 l) by done. reflexivity.
Qed.

(** The same over all the schemas: the counts of the schemas add up. *)
Lemma count_schemas_spec items schemas counts :
  NoDup items.*1 →
  (∀ l, l ∈ items.*1 → is_Some (counts !! l)) →
  ∃ counts',
    count_schemas now records items schemas counts = Ok counts'
    ∧ ∀ l, counts' !! l
           = match (list_to_map items : gmap string Z) !! l with
             | Some d =>
                 (λ c, c + foldr Z.add 0
                             ((λ s, window_count s d) <$> schemas))
                   <$> counts !! l
             | None => counts !! l
             end.
Proof.
  intros Hnd. revert counts.
  induction schemas as [|s schemas IH]; intros counts Hdom.
  - exists counts. split; [reflexivity|]. intros l. simpl.
    destruct (list_to_map items !! l); [|reflexivity].
    destruct (counts !! l); simpl; [f_equal; lia|reflexivity].
  - destruct (count_schema_spec (record_set s records) items counts Hnd Hdom)
      as (counts1 & Hrun1 & Hlook1).
    destruct (IH counts1) as (counts' & Hrun & Hlook).
    { intros l Hl. rewrite Hlook1. destruct (Hdom l Hl) as [c ->].
      destruct (list_to_map items !! l); by eexists. }
    exists counts'. split.
    + cbn [count_schemas]. rewrite Hrun1. exact Hrun.
    + intros l. rewrite Hlook, Hlook1.
      destruct (list_to_map items !! l) as [d|]; [|reflexivity].
      rewrite fmap_cons. cbn [foldr].
      destruct (counts !! l) as [c|]; [|reflexivity].
      cbn [fmap option_fmap option_map]. f_equal. lia.
Qed.

Lemma window_count_total rt schemas days :
  foldr Z.add 0 ((λ s, window_count s days) <$> schemas_all rt schemas)
  = window_total (type_pk rt) schemas records now days.
Proof.
  unfold window_total, schemas_all. f_equal.
  apply list_fmap_ext. intros _ s _. unfold count_between, record_set.
  do 2 f_equal. rewrite list_filter_filter.
  apply list_filter_iff. intros r. tauto.
Qed.
End RecentCounts.

Section RecentCountsClaims.
Import RecordTypeViewSet.

Lemma durations_items items :
  items ≡ₚ map_to_list durations →
  NoDup items.*1 ∧ (list_to_map items : gmap string Z) = durations.
Proof.
  intros Hperm. split.
  - rewrite Hperm. apply NoDup_fst_map_to_list.
  - rewrite <- (list_to_map_to_list durations).
    apply list_to_map_proper; [|exact Hperm].
    rewrite Hperm. apply NoDup_fst_map_to_list.
Qed.

Lemma durations_labels_counted items l :
  items ≡ₚ map_to_list durations →
  l ∈ items.*1 → is_Some (counts_init !! l).
Proof.
  intros Hperm Hl. rewrite Hperm in Hl.
  apply list_elem_of_fmap in Hl as ([l' d] & -> & Hld).
  apply elem_of_map_to_list in Hld. simpl.
  unfold durations in Hld. unfold counts_init.
  rewrite !lookup_insert in Hld. rewrite !lookup_insert.
  repeat case_decide; by eexists.
Qed.

(** C4: for a record type that exists, [recent_counts] answers the mapping
    of [month], [quarter] and [year] to, for the window of 30, 90 and 365
    days that ends at [now], the sum over every schema row of the type (the
    current version or not) of the number of that schema's records whose
    [occurred_from] lies in the closed interval from [now] minus the window
    to [now]; in whatever order the dictionary of durations is walked. *)
Theorem recent_counts_sums_all_versions types schemas records now pk rt :
  objects_get MRecordType (λ t, type_pk t = pk) types = Ok rt →
  let expected : gmap string Z :=
    <["month" := window_total pk schemas records now 30]>
      (<["quarter" := window_total pk schemas records now 90]>
         (<["year" := window_total pk schemas records now 365]> ∅)) in
  recent_counts types schemas records now pk
  = Ok (mkResponse HTTP_200_OK expected)
  ∧ ∀ items,
      items ≡ₚ map_to_list durations →
      recent_counts_in_order items types schemas records now pk
      = Ok (mkResponse HTTP_200_OK expected).
Proof.
  intros Hget expected.
  assert (Hgen : ∀ items,
    items ≡ₚ map_to_list durations →
    recent_counts_in_order items types schemas records now pk
    = Ok (mkResponse HTTP_200_OK expected)).
  { intros items Hperm.
    destruct (durations_items items Hperm) as [Hnd Hmap].
    destruct (count_schemas_spec now records items (schemas_all rt schemas)
                counts_init Hnd (λ l, durations_labels_counted items l Hperm))
      as (counts' & Hrun & Hlook).
    unfold recent_counts_in_order. rewrite Hget. simpl. rewrite Hrun. simpl.
    do 2 f_equal. apply map_eq. intros l. rewrite Hlook, Hmap.
    assert (Hpk : type_pk rt = pk)
      by (apply objects_get_Ok_elem in Hget as [_ ?]; done).
    unfold durations, counts_init, expected.
    rewrite !lookup_insert.
    repeat case_decide; subst; try discriminate;
      rewrite ?lookup_empty; simpl; rewrite ?window_count_total, ?Hpk;
      reflexivity. }
  split; [|exact Hgen].
  apply Hgen. reflexivity.
Qed.

(** C9: when no record type has the key, [recent_counts] raises the
    [DoesNotExist] of [RecordType] at its bare [objects.get] and computes
    nothing; the view has no handler for it, so what leaves the view is that
    exception and not the [Http404] of a missing object, and the client is
    answered 500.  The detail route [geojson] beside it looks its object up
    with [get_object] and is answered 404 when the key is unknown. *)
Theorem recent_counts_unknown_type types schemas records now pk :
  (∀ t, t ∈ types → type_pk t ≠ pk) →
  recent_counts types schemas records now pk = Raise (DoesNotExist MRecordType)
  ∧ outcome_of (recent_counts types schemas records now pk) ≠ Http404
  ∧ answered_status (outcome_of (recent_counts types schemas records now pk))
    = HTTP_500_INTERNAL_SERVER_ERROR
  ∧ ∀ filter_queryset to_representation request boundaries polygons,
      (∀ b, b ∈ filter_queryset request boundaries → boundary_pk b ≠ pk) →
      answered_status
        (BoundaryGeojson.geojson filter_queryset to_representation
           request boundaries polygons pk)
      = HTTP_404_NOT_FOUND.
Proof.
  intros Hno.
  assert (Hr : recent_counts types schemas records now pk
               = Raise (DoesNotExist MRecordType)).
  { unfold recent_counts, recent_counts_in_order.
    rewrite (objects_get_none MRecordType (λ t, type_pk t = pk) types Hno).
    reflexivity. }
  rewrite Hr. simpl. split; [reflexivity|]. split; [discriminate|].
  split; [reflexivity|].
  intros filter_queryset to_representation request boundaries polygons Hb.
  unfold BoundaryGeojson.geojson, BoundaryGeojson.get_object.
  rewrite (objects_get_none MBoundary _ _ Hb). reflexivity.
Qed.
End RecentCountsClaims.

(** Two versions of one type, a record ten days old under the first, one
    fifty days old under the second and one four hundred days old under the
    first: the old version's records count. *)
Lemma recent_counts_example :
  let now := 1000 * 86400000000 in
  RecordTypeViewSet.recent_counts
    [mkRecordType 1 "Incident" "Incidents"]
    [mkRecordSchema 1 1 1 PNone (Some 2); mkRecordSchema 2 1 2 PNone None]
    [mkRecord 1 1 (now - timedelta_days 10);
     mkRecord 2 2 (now - timedelta_days 50);
     mkRecord 3 1 (now - timedelta_days 400)]
    now 1
  = Ok (mkResponse HTTP_200_OK
          (<["month" := 1]> (<["quarter" := 2]> (<["year" := 2]> ∅)))).
Proof. vm_compute. reflexivity. Qed.

Lemma recent_counts_sums_all_versions_witness :
  let now := 1000 * 86400000000 in
  let types := [mkRecordType 1 "Incident" "Incidents"] in
  let schemas :=
    [mkRecordSchema 1 1 1 PNone (Some 2); mkRecordSchema 2 1 2 PNone None] in
  let records := [mkRecord 1 1 (now - timedelta_days 10);
                  mkRecord 2 2 (now - timedelta_days 50)] in
  RecordTypeViewSet.recent_counts types schemas records now 1
  = Ok (mkResponse HTTP_200_OK
          (<["month" := RecordTypeViewSet.window_total 1 schemas records now 30]>
             (<["quarter" :=
                  RecordTypeViewSet.window_total 1 schemas records now 90]>
                (<["year" :=
                     RecordTypeViewSet.window_total 1 schemas records now 365]>
                   ∅)))).
Proof.
  intros now types schemas records.
  exact (proj1 (recent_counts_sums_all_versions types schemas records now 1
                  (mkRecordType 1 "Incident" "Incidents") eq_refl)).
Defined.

Lemma recent_counts_unknown_type_witness :
  RecordTypeViewSet.recent_counts
    [mkRecordType 1 "Incident" "Incidents"] [] [] 0 2
  = Raise (DoesNotExist MRecordType)
  ∧ answered_status
      (outcome_of (RecordTypeViewSet.recent_counts
                     [mkRecordType 1 "Incident" "Incidents"] [] [] 0 2))
    = 500.
Proof.
  assert (Hno : ∀ t, t ∈ [mkRecordType 1 "Incident" "Incidents"] →
                     type_pk t ≠ 2).
  { intros t Ht%list_elem_of_singleton. subst t. simpl. lia. }
  destruct (recent_counts_unknown_type
              [mkRecordType 1 "Incident" "Incidents"] [] [] 0 2 Hno)
    as (Hraise & _ & Hstatus & _).
  split; [exact Hraise|exact Hstatus].
Defined.

(** ** BoundaryViewSet.create *)

(** C5: when the inherited create reports a violated uniqueness constraint
    (an [IntegrityError]), [create] does not fail: it answers the 409
    response that names the violation, and the table is the one the failed
    insert left, which is the table before when a refused insert writes
    nothing; any other outcome of the inherited create is returned as it is.
    Over a table with unique labels: a label already stored gives the 409
    response and the same table, a new label the 201 response of the normal
    create and the table with the new boundary appended. *)
Theorem boundary_create_conflict :
  (∀ super_create request_data table,
     (∀ d t t', super_create d t = (Raise IntegrityError, t') → t' = t) →
     (∀ table',
        super_create request_data table = (Raise IntegrityError, table') →
        BoundaryViewSet.create super_create request_data table
        = (Ok BoundaryViewSet.conflict_response, table))
     ∧ (∀ out table',
          super_create request_data table = (out, table') →
          out ≠ Raise IntegrityError →
          BoundaryViewSet.create super_create request_data table
          = (out, table')))
  ∧ status BoundaryViewSet.conflict_response = HTTP_409_CONFLICT
  ∧ (∀ request_data table l,
       request_data !! "label" = Some (PStr l) →
       (l ∈ boundary_label <$> table →
        BoundaryViewSet.create BoundaryViewSet.model_create request_data table
        = (Ok BoundaryViewSet.conflict_response, table))
       ∧ (l ∉ boundary_label <$> table →
          ∃ response b,
            BoundaryViewSet.create BoundaryViewSet.model_create
              request_data table
            = (Ok response, table ++ [b])
            ∧ status response = HTTP_201_CREATED
            ∧ boundary_label b = l)).
Proof.
  split; [|split].
  - intros super_create request_data table Hatomic. split.
    + intros table' Hraise. unfold BoundaryViewSet.create.
      rewrite Hraise. by rewrite (Hatomic _ _ _ Hraise).
    + intros out table' Hout Hne. unfold BoundaryViewSet.create.
      rewrite Hout. destruct out as [resp|e]; [reflexivity|].
      destruct e; try reflexivity. contradiction.
  - reflexivity.
  - intros request_data table l Hl.
    unfold BoundaryViewSet.create, BoundaryViewSet.model_create.
    rewrite Hl. split; intros Hin.
    + rewrite decide_True by exact Hin. reflexivity.
    + rewrite decide_False by exact Hin. eexists _, _.
      split; [reflexivity|]. split; reflexivity.
Qed.

Lemma boundary_create_conflict_witness :
  (∀ d t t',
     BoundaryViewSet.model_create d t = (Raise IntegrityError, t') → t' = t)
  ∧ BoundaryViewSet.create BoundaryViewSet.model_create
      (<["label" := PStr "wards"]> ∅) [mkBoundary 1 "wards"]
    = (Ok BoundaryViewSet.conflict_response, [mkBoundary 1 "wards"]).
Proof.
  assert (Hatomic : ∀ d t t',
    BoundaryViewSet.model_create d t = (Raise IntegrityError, t') → t' = t).
  { intros d t t'. unfold BoundaryViewSet.model_create.
    destruct (d !! "label") as [[| |l| |]|]; try (intros [= _ <-]; reflexivity).
    destruct (decide (l ∈ boundary_label <$> t)); intros [= <-]; reflexivity. }
  split; [exact Hatomic|].
  exact (proj1 (proj1 boundary_create_conflict BoundaryViewSet.model_create
                  (<["label" := PStr "wards"]> ∅) [mkBoundary 1 "wards"]
                  Hatomic)
           [mkBoundary 1 "wards"] eq_refl).
Defined.

(** ** RecordViewSet.list *)

Lemma closed_text_escape s :
  closed_text (escape_quotes s +:+ String (Ascii.ascii_of_nat 39) EmptyString)
  = Some s.
Proof.
  induction s as [|c rest IH]; [reflexivity|].
  cbn [escape_quotes]. destruct (is_quote c) eqn:Hq.
  - change (closed_text (String c (String c
             (escape_quotes rest
              +:+ String (Ascii.ascii_of_nat 39) EmptyString)))
            = Some (String c rest)).
    cbn [closed_text]. rewrite Hq, IH. reflexivity.
  - change (closed_text (String c
             (escape_quotes rest
              +:+ String (Ascii.ascii_of_nat 39) EmptyString))
            = Some (String c rest)).
    cbn [closed_text]. rewrite Hq, IH. reflexivity.
Qed.

(** A quoted text is one complete string literal and reads back as the
    text: no character of the text can end the literal. *)
Lemma literal_text_quote s : literal_text (quote_text s) = Some s.
Proof. unfold quote_text, literal_text. simpl. apply closed_text_escape. Qed.

Lemma adapted_literals params lits :
  mapM adapt params = Some lits →
  Forall2 (λ p lit, adapt p = Some lit
                    ∧ ∀ s, p = PStr s → literal_text lit = Some s)
          params lits.
Proof.
  intros Hm%mapM_Some. induction Hm as [|p lit ps ls Hp _ IH]; constructor.
  - split; [exact Hp|]. intros s ->. simpl in Hp. injection Hp as <-.
    apply literal_text_quote.
  - exact IH.
Qed.

Lemma pg_mogrify_adapts sql params lits text :
  mapM adapt params = Some lits →
  substitute sql lits = Some text →
  pg_mogrify sql params = text.
Proof. unfold pg_mogrify. intros -> Hs. simpl. by rewrite Hs. Qed.

(** C6: with [query] among the request's parameters, [list] answers, under
    the key [query], what [mogrify] renders of the SQL and the parameters of
    the query set that every configured filter backend has been applied to,
    in order.  The answer is the same whatever records are stored and
    whatever the inherited listing would do; the stored records are
    untouched and the connection saw a cursor opened and closed, no
    statement executed.  When [mogrify] renders as psycopg2 does, each
    placeholder replaced by the adapted parameter, the text is the query
    with the literals substituted, and every text parameter is rendered as
    one string literal that reads back as the parameter.  Without [query],
    the answer and the effects are those of the inherited listing, whatever
    the SQL compiler and [mogrify] would have produced. *)
Theorem list_query_diagnostic
    (QuerySet : Type) (get_queryset : QuerySet)
    (filter_backends : list (HttpRequest → QuerySet → QuerySet))
    (sql_with_params : QuerySet → string * list pyval)
    (mogrify : string → list pyval → string)
    (super_list : HttpRequest → DbState → Response pyval * DbState)
    (request : HttpRequest) (st : DbState) :
  let qryset := filtered request filter_backends get_queryset in
  let sql := (sql_with_params qryset).1 in
  let params := (sql_with_params qryset).2 in
  let out :=
    RecordViewSet.list QuerySet get_queryset filter_backends
      sql_with_params mogrify super_list request st in
  (∀ v, GET request !! "query" = Some v →
     out.1 = mkResponse HTTP_200_OK
               (PDict [("query", PStr (mogrify sql params))])
     ∧ stored out.2 = stored st
     ∧ events out.2 = events st ++ [CursorOpened; CursorClosed]
     ∧ (∀ sql' params',
          Executed sql' params' ∈ events out.2 →
          Executed sql' params' ∈ events st)
     ∧ (∀ super_list' st',
          (RecordViewSet.list QuerySet get_queryset filter_backends
             sql_with_params mogrify super_list' request st').1
          = out.1)
     ∧ ((∀ sql0 params0 lits0 text0,
           mapM adapt params0 = Some lits0 →
           substitute sql0 lits0 = Some text0 →
           mogrify sql0 params0 = text0) →
        ∀ lits text,
          mapM adapt params = Some lits →
          substitute sql lits = Some text →
          out.1 = mkResponse HTTP_200_OK (PDict [("query", PStr text)])
          ∧ Forall2 (λ p lit, adapt p = Some lit
                              ∧ ∀ s, p = PStr s → literal_text lit = Some s)
                    params lits))
  ∧ (GET request !! "query" = None →
     ∀ sql_with_params' mogrify',
       RecordViewSet.list QuerySet get_queryset filter_backends
         sql_with_params' mogrify' super_list request st
       = super_list request st).
Proof.
  intros qryset sql params out.
  assert (Hfiltered :
    RecordViewSet.apply_filters QuerySet get_queryset filter_backends request
    = qryset) by apply apply_filters_filtered.
  split.
  - intros v Hq.
    assert (Hout : ∀ super_list' st',
      RecordViewSet.list QuerySet get_queryset filter_backends
        sql_with_params mogrify super_list' request st'
      = (mkResponse HTTP_200_OK (PDict [("query", PStr (mogrify sql params))]),
         mkDbState (stored st')
           ((events st' ++ [CursorOpened]) ++ [CursorClosed]))).
    { intros super_list' st'. unfold RecordViewSet.list.
      rewrite Hq, Hfiltered. subst sql params.
      destruct (sql_with_params qryset) as [sql0 params0]. reflexivity. }
    subst out. rewrite Hout. simpl.
    split; [reflexivity|]. split; [reflexivity|].
    rewrite <- app_assoc. split; [reflexivity|]. split; [|split].
    + intros sql' params' Hin.
      apply elem_of_app in Hin as [Hin|Hin]; [exact Hin|].
      apply elem_of_cons in Hin as [Hin|Hin]; [discriminate|].
      apply list_elem_of_singleton in Hin. discriminate.
    + intros super_list' st'. rewrite Hout. reflexivity.
    + intros Hmog lits text Hlits Htext.
      rewrite (Hmog _ _ _ _ Hlits Htext).
      split; [reflexivity|]. by apply adapted_literals.
  - intros Hq sql_with_params' mogrify'. unfold RecordViewSet.list.
    rewrite Hq. reflexivity.
Qed.

(** A request for the SQL of the records labelled O'Brien: the answer is the
    query text with the label as one quoted literal, its quote doubled;
    nothing is executed and the stored record stays. *)
Lemma list_query_diagnostic_witness :
  let request :=
    mkHttpRequest (<["query" := ""]> (<["label" := "O'Brien"]> ∅)) in
  let st := mkDbState [mkRecord 1 1 0] [] in
  let out :=
    RecordViewSet.list (string * list pyval)
      ("SELECT * FROM ashlar_record WHERE TRUE", [])
      [λ rq q, match GET rq !! "label" with
               | Some l => (q.1 +:+ " AND label = %s", q.2 ++ [PStr l])
               | None => q
               end]
      (λ q, q) pg_mogrify
      (λ _ s, (mkResponse HTTP_200_OK (PList []),
               mkDbState (stored s) (events s ++ [Executed "SELECT" []])))
      request st in
  out.1 = mkResponse HTTP_200_OK
            (PDict [("query",
                     PStr "SELECT * FROM ashlar_record WHERE TRUE AND label = 'O''Brien'")])
  ∧ stored out.2 = stored st
  ∧ events out.2 = [CursorOpened; CursorClosed].
Proof.
  intros request st out.
  destruct (proj1 (list_query_diagnostic (string * list pyval)
                     ("SELECT * FROM ashlar_record WHERE TRUE", [])
                     [λ rq q, match GET rq !! "label" with
                              | Some l =>
                                  (q.1 +:+ " AND label = %s", q.2 ++ [PStr l])
                              | None => q
                              end]
                     (λ q, q) pg_mogrify
                     (λ _ s, (mkResponse HTTP_200_OK (PList []),
                              mkDbState (stored s)
                                (events s ++ [Executed "SELECT" []])))
                     request st) "" eq_refl)
    as (_ & Hstored & Hevents & _ & _ & Hrender).
  split; [|split; [exact Hstored|exact Hevents]].
  refine (proj1 (Hrender pg_mogrify_adapts ["'O''Brien'"] _ _ _)).
  - vm_compute. reflexivity.
  - vm_compute. reflexivity.
Defined.

(** * Further properties of the views *)

(** ** get_serializer: failure, frame and the size of the new version *)

Section GetSerializerMore.
Import RecordSchemaViewSet.



Lemma contains_getitem body :
  contains "record_type" body = Ok true →
  (∃ v, getitem "record_type" body = Ok v
        ∧ body !! "record_type" = Some v
        ∧ ∃ d, body = Dict d ∨ body = QueryDict d)
  ∨ (getitem "record_type" body = Raise TypeError ∧ ∃ p, body = Plain p).
Proof.
  destruct body as [d|d|p]; simpl.
  - intros [= [v Hv]%bool_decide_eq_true]. left. exists v. rewrite Hv. eauto.
  - intros [= [v Hv]%bool_decide_eq_true]. left. exists v. rewrite Hv. eauto.
  - intros _. right. eauto.
Qed.

(** The shape of every success: the arguments as they came, or a dictionary
    with the computed version written in. *)
Lemma get_serializer_Ok_inv table act args kwargs s :
  get_serializer table act args kwargs = Ok s →
  s = mkSerializer args kwargs
  ∨ (act = create
     ∧ ∃ d v n,
         kw_data kwargs = Some (Dict d) ∧ d !! "record_type" = Some v
         ∧ next_version_number table v = Ok n
         ∧ s = mkSerializer args
                 (mkKwargs (Some (Dict (<["version" := PInt n]> d)))
                           (kw_rest kwargs))).
Proof.
  destruct kwargs as [data rest]. unfold get_serializer. simpl.
  destruct (decide (act = create)) as [->|Hact]; [|intros [= <-]; by left].
  destruct data as [body|]; [|intros [= <-]; by left].
  destruct (contains "record_type" body) as [[|]|e] eqn:Hc; simpl;
    [| intros [= <-]; by left | discriminate].
  destruct (contains_getitem body Hc)
    as [(v & Hg & Hv & d & [->| ->])|[Hg _]]; rewrite Hg; simpl;
    [| |discriminate].
  - destruct (next_version_number table v) as [n|e] eqn:Hn; simpl;
      [|discriminate].
    intros [= <-]. right. split; [reflexivity|]. by exists d, v, n.
  - destruct (next_version_number table v) as [n|e] eqn:Hn; simpl;
      discriminate.
Qed.


(** X2: when it succeeds, [get_serializer] passes the positional arguments
    and the other keywords on as they are, keeps every key of the data
    except [version], and adds no data where there was none; and called
    again on the arguments of the serializer it built, it builds the same
    serializer. *)
Theorem get_serializer_frame_idempotent table act args kwargs s :
  get_serializer table act args kwargs = Ok s →
  ser_args s = args
  ∧ kw_rest (ser_kwargs s) = kw_rest kwargs
  ∧ (kw_data kwargs = None → kw_data (ser_kwargs s) = None)
  ∧ (∀ d, kw_data kwargs = Some d →
       ∃ d', kw_data (ser_kwargs s) = Some d'
             ∧ ∀ k, k ≠ "version" → d' !! k = d !! k)
  ∧ get_serializer table act (ser_args s) (ser_kwargs s) = Ok s.
Proof.
  intros Hok.
  destruct (get_serializer_Ok_inv _ _ _ _ _ Hok)
    as [->|(-> & d & v & n & Hd & Hv & Hn & ->)]; simpl.
  - refine (conj _ (conj _ (conj _ (conj _ _))));
      [reflexivity|reflexivity|auto| |exact Hok].
    intros d Hd. by exists d.
  - destruct kwargs as [data rest]. simpl in *. subst data.
    refine (conj _ (conj _ (conj _ (conj _ _))));
      [reflexivity|reflexivity|discriminate| |].
    + intros d0 [= <-]. eexists. split; [reflexivity|].
      intros k Hk. unfold lookup, body_lookup.
      by rewrite lookup_insert_ne.
    + assert (Hv' : <["version" := PInt n]> d !! "record_type" = Some v)
        by (rewrite lookup_insert_ne; [exact Hv|discriminate]).
      rewrite (get_serializer_create _ _ _ _ _ Hv'), Hn. simpl.
      by rewrite insert_insert_eq.
Qed.

(** Along well-formed links every row reaches a row of its type without
    successor, whose version is not smaller. *)
Lemma links_reach_head table r :
  links_increase table → r ∈ table →
  ∃ h, h ∈ table ∧ record_type h = record_type r
       ∧ next_version h = None ∧ version r ≤ version h.
Proof.
  intros Hlinks.
  set (M := foldr Z.max 0 (version <$> table)).
  assert (Hmax : ∀ x, x ∈ table → version x ≤ M).
  { subst M. clear Hlinks. induction table as [|y l IH]; intros x Hx.
    - by apply elem_of_nil in Hx.
    - rewrite fmap_cons. cbn [foldr].
      apply elem_of_cons in Hx as [->|Hx]; [lia|].
      specialize (IH x Hx). lia. }
  assert (Hind : ∀ n : nat, ∀ x, x ∈ table → M - version x < Z.of_nat n →
    ∃ h, h ∈ table ∧ record_type h = record_type x
         ∧ next_version h = None ∧ version x ≤ version h).
  { induction n as [|n IH]; intros x Hx Hn.
    - specialize (Hmax x Hx). lia.
    - destruct (next_version x) as [p|] eqn:Hnext.
      + destruct (Hlinks x p Hx Hnext) as (x' & Hx' & _ & Hty & Hlt).
        destruct (IH x' Hx') as (h & Hh & Hhty & Hhn & Hle); [lia|].
        exists h. repeat split; [exact Hh|congruence|exact Hhn|lia].
      + exists x. repeat split; [exact Hx|exact Hnext|lia]. }
  intros Hr. apply (Hind (Z.to_nat (M - version r + 1)) r Hr).
  specialize (Hmax r Hr). lia.
Qed.

(** X3: on a table whose links are well formed and where the record type has
    at most one row with a null [next_version], a create for that type
    succeeds, and the version it puts in the data is larger than the
    version of every stored schema of the type: no version is given
    twice. *)
Theorem get_serializer_version_exceeds table args d rest rt :
  d !! "record_type" = Some (PInt rt) →
  links_increase table →
  (length (filter (is_head_of (PInt rt)) table) ≤ 1)%nat →
  ∃ n,
    get_serializer table create args (mkKwargs (Some (Dict d)) rest)
    = Ok (mkSerializer args
            (mkKwargs (Some (Dict (<["version" := PInt n]> d))) rest))
    ∧ ∀ r, r ∈ table → record_type r = rt → version r < n.
Proof.
  intros Hd Hlinks Hone.
  rewrite (get_serializer_create _ _ _ _ _ Hd).
  assert (Hreach : ∀ r, r ∈ table → record_type r = rt →
    ∃ h, h ∈ filter (is_head_of (PInt rt)) table ∧ version r ≤ version h).
  { intros r Hr Hty.
    destruct (links_reach_head table r Hlinks Hr) as (h & Hh & Hhty & Hhn & Hle).
    exists h. split; [|exact Hle].
    apply list_elem_of_filter. split; [|exact Hh].
    split; [simpl; congruence|exact Hhn]. }
  destruct (filter (is_head_of (PInt rt)) table) as [|h [|h' l]] eqn:Hheads.
  - pose proof Hheads as Hget.
    apply (objects_get_DoesNotExist MRecordSchema) in Hget.
    rewrite (next_version_number_first _ (PInt rt) (Some rt) eq_refl Hget). simpl.
    exists 1. split; [reflexivity|].
    intros r Hr Hty. destruct (Hreach r Hr Hty) as (h & Hh & _).
    by apply elem_of_nil in Hh.
  - pose proof Hheads as Hget.
    apply (objects_get_Ok MRecordSchema) in Hget.
    rewrite (next_version_number_head _ _ _ Hget). simpl.
    exists (version h + 1). split; [reflexivity|].
    intros r Hr Hty. destruct (Hreach r Hr Hty) as (h0 & Hh0 & Hle).
    apply list_elem_of_singleton in Hh0. subst h0. lia.
  - simpl in Hone. lia.
Qed.
End GetSerializerMore.

Lemma get_serializer_frame_idempotent_witness :
  let s := mkSerializer []
             (mkKwargs
                (Some (Dict (<["version" := PInt 4]> (post_data 1 PNone)))) ∅) in
  RecordSchemaViewSet.get_serializer [mkRecordSchema 7 1 3 PNone None]
    create (ser_args s) (ser_kwargs s) = Ok s.
Proof.
  intros s.
  refine (proj2 (proj2 (proj2 (proj2
    (get_serializer_frame_idempotent [mkRecordSchema 7 1 3 PNone None]
       create [] (mkKwargs (Some (Dict (post_data 1 PNone))) ∅) s _))))).
  vm_compute. reflexivity.
Defined.

Lemma get_serializer_version_exceeds_witness :
  let table := [mkRecordSchema 1 1 1 PNone (Some 2);
                mkRecordSchema 2 1 2 PNone None] in
  ∃ n,
    RecordSchemaViewSet.get_serializer table create []
      (mkKwargs (Some (Dict (post_data 1 PNone))) ∅)
    = Ok (mkSerializer []
            (mkKwargs
               (Some (Dict (<["version" := PInt n]> (post_data 1 PNone)))) ∅))
    ∧ ∀ r, r ∈ table → record_type r = 1 → version r < n.
Proof.
  intros table.
  apply (get_serializer_version_exceeds table [] (post_data 1 PNone) ∅ 1).
  - vm_compute. reflexivity.
  - intros r p Hr Hnext.
    apply elem_of_cons in Hr as [->|Hr].
    + injection Hnext as <-. exists (mkRecordSchema 2 1 2 PNone None).
      split; [right; left|]. simpl. lia.
    + apply list_elem_of_singleton in Hr; subst r. discriminate.
  - vm_compute. lia.
Defined.


(** ** Counting by key *)

Section CountingByKey.
Context {A K : Type} `{EqDecision K}.

Lemma length_filter_or (P Q : A → Prop)
    {Pdec : ∀ x, Decision (P x)} {Qdec : ∀ x, Decision (Q x)} (l : list A) :
  (∀ x, P x → Q x → False) →
  (length (filter P l) + length (filter Q l))%nat
  = length (filter (λ x, P x ∨ Q x) l).
Proof.
  intros Hdis. induction l as [|x l IH]; [reflexivity|].
  destruct (decide (P x)) as [HP|HP], (decide (Q x)) as [HQ|HQ].
  - destruct (Hdis x HP HQ).
  - rewrite (filter_cons_True P) by exact HP.
    rewrite (filter_cons_False Q) by exact HQ.
    rewrite (filter_cons_True (λ x, P x ∨ Q x)) by (left; exact HP).
    simpl. lia.
  - rewrite (filter_cons_False P) by exact HP.
    rewrite (filter_cons_True Q) by exact HQ.
    rewrite (filter_cons_True (λ x, P x ∨ Q x)) by (right; exact HQ).
    simpl. lia.
  - rewrite (filter_cons_False P) by exact HP.
    rewrite (filter_cons_False Q) by exact HQ.
    rewrite (filter_cons_False (λ x, P x ∨ Q x)) by tauto.
    exact IH.
Qed.

Lemma length_filter_iff (P Q : A → Prop)
    {Pdec : ∀ x, Decision (P x)} {Qdec : ∀ x, Decision (Q x)} (l : list A) :
  (∀ x, P x ↔ Q x) → length (filter P l) = length (filter Q l).
Proof. intros Hiff. by rewrite (list_filter_iff P Q l Hiff). Qed.

Lemma length_filter_mono (P Q : A → Prop)
    {Pdec : ∀ x, Decision (P x)} {Qdec : ∀ x, Decision (Q x)} (l : list A) :
  (∀ x, P x → Q x) → (length (filter P l) ≤ length (filter Q l))%nat.
Proof.
  intros Himp. induction l as [|x l IH]; [reflexivity|].
  destruct (decide (P x)) as [HP|HP].
  - rewrite (filter_cons_True P) by exact HP.
    rewrite (filter_cons_True Q) by (apply Himp, HP). simpl. lia.
  - rewrite (filter_cons_False P) by exact HP.
    destruct (decide (Q x)) as [HQ|HQ].
    + rewrite (filter_cons_True Q) by exact HQ. simpl. lia.
    + rewrite (filter_cons_False Q) by exact HQ. exact IH.
Qed.

(** Over keys without repetition, the sizes of the classes of the keys add
    up to the number of elements whose key is among them. *)
Lemma sum_length_by_key (f : A → K) (ks : list K) (l : list A) :
  NoDup ks →
  foldr Z.add 0 ((λ k, Z.of_nat (length (filter (λ x, f x = k) l))) <$> ks)
  = Z.of_nat (length (filter (λ x, f x ∈ ks) l)).
Proof.
  induction 1 as [|k ks Hk Hnd IH].
  - simpl. rewrite filter_none; [reflexivity|].
    intros x _ Hx. by apply elem_of_nil in Hx.
  - rewrite fmap_cons. cbn [foldr]. rewrite IH.
    rewrite <- Nat2Z.inj_add. f_equal.
    rewrite (length_filter_or (λ x, f x = k) (λ x, f x ∈ ks)).
    + apply length_filter_iff. intros x. rewrite elem_of_cons. tauto.
    + intros x <- Hx. exact (Hk Hx).
Qed.
End CountingByKey.

(** ** recent_counts: ordering of the windows, what is counted, additivity *)

Section RecentCountsMore.
Import RecordTypeViewSet.

Local Abbreviation answer a b c :=
  (<["month" := a]> (<["quarter" := b]> (<["year" := c]> (∅ : gmap string Z)))).

(** The value of a successful [recent_counts]. *)
Lemma recent_counts_in_order_value items types schemas records now pk rt :
  items ≡ₚ map_to_list durations →
  objects_get MRecordType (λ t, type_pk t = pk) types = Ok rt →
  recent_counts_in_order items types schemas records now pk
  = Ok (mkResponse HTTP_200_OK
          (answer (window_total pk schemas records now 30)
                  (window_total pk schemas records now 90)
                  (window_total pk schemas records now 365))).
Proof.
  intros Hperm Hget.
  destruct (durations_items _ Hperm) as [Hnd Hmap].
  destruct (count_schemas_spec now records items
              (schemas_all rt schemas) counts_init Hnd
              (λ l, durations_labels_counted items l Hperm))
    as (counts' & Hrun & Hlook).
  unfold recent_counts_in_order. rewrite Hget. simpl.
  rewrite Hrun. simpl. do 2 f_equal. apply map_eq. intros l.
  rewrite Hlook, Hmap.
  assert (Hpk : type_pk rt = pk)
    by (apply objects_get_Ok_elem in Hget as [_ ?]; done).
  unfold durations, counts_init. rewrite !lookup_insert.
  repeat case_decide; subst; try discriminate;
    rewrite ?lookup_empty; simpl; rewrite ?window_count_total, ?Hpk;
    reflexivity.
Qed.

Lemma recent_counts_value types schemas records now pk rt :
  objects_get MRecordType (λ t, type_pk t = pk) types = Ok rt →
  recent_counts types schemas records now pk
  = Ok (mkResponse HTTP_200_OK
          (answer (window_total pk schemas records now 30)
                  (window_total pk schemas records now 90)
                  (window_total pk schemas records now 365))).
Proof.
  intros Hget. unfold recent_counts.
  apply (recent_counts_in_order_value _ _ _ _ _ _ rt); [reflexivity|exact Hget].
Qed.

Lemma recent_counts_Ok_inv types schemas records now pk resp :
  recent_counts types schemas records now pk = Ok resp →
  resp = mkResponse HTTP_200_OK
           (answer (window_total pk schemas records now 30)
                   (window_total pk schemas records now 90)
                   (window_total pk schemas records now 365)).
Proof.
  intros Hok.
  destruct (objects_get MRecordType (λ t, type_pk t = pk) types)
    as [rt|e] eqn:Hget.
  - rewrite (recent_counts_value _ _ _ _ _ _ Hget) in Hok. congruence.
  - unfold recent_counts in Hok.
    generalize dependent (map_to_list durations). intros items Hok.
    unfold recent_counts_in_order in Hok.
    rewrite Hget in Hok. discriminate.
Qed.

Lemma answer_lookup a b c k v :
  answer a b c !! k = Some v →
  (k = "month" ∧ v = a) ∨ (k = "quarter" ∧ v = b) ∨ (k = "year" ∧ v = c).
Proof.
  rewrite !lookup_insert. repeat case_decide; subst;
    rewrite ?lookup_empty; intros [= <-]; auto.
Qed.

Lemma answer_values a b c :
  answer a b c !! "month" = Some a
  ∧ answer a b c !! "quarter" = Some b
  ∧ answer a b c !! "year" = Some c.
Proof.
  split; [apply lookup_insert_eq|]. split.
  - rewrite lookup_insert_ne by done. apply lookup_insert_eq.
  - rewrite !lookup_insert_ne by done. apply lookup_insert_eq.
Qed.

Lemma window_total_nonneg pk schemas records now days :
  0 ≤ window_total pk schemas records now days.
Proof.
  unfold window_total.
  induction (filter (λ s, record_type s = pk) schemas) as [|s l IH];
    [reflexivity|].
  rewrite fmap_cons. cbn [foldr]. lia.
Qed.

Lemma window_total_mono pk schemas records now d1 d2 :
  d1 ≤ d2 →
  window_total pk schemas records now d1
  ≤ window_total pk schemas records now d2.
Proof.
  intros Hd. unfold window_total.
  induction (filter (λ s, record_type s = pk) schemas) as [|s l IH];
    [reflexivity|].
  rewrite !fmap_cons. cbn [foldr].
  apply Z.add_le_mono; [|exact IH].
  apply Nat2Z.inj_le, length_filter_mono.
  unfold timedelta_days. intros r (? & ? & ?).
  split; [done|]. split; [lia|done].
Qed.

Lemma window_total_app pk schemas records1 records2 now days :
  window_total pk schemas (records1 ++ records2) now days
  = window_total pk schemas records1 now days
    + window_total pk schemas records2 now days.
Proof.
  unfold window_total.
  induction (filter (λ s, record_type s = pk) schemas) as [|s l IH];
    [reflexivity|].
  rewrite !fmap_cons. cbn [foldr]. rewrite IH.
  rewrite filter_app, length_app. lia.
Qed.

Lemma NoDup_schema_pk_filter (P : RecordSchema → Prop)
    {Pdec : ∀ s, Decision (P s)} schemas :
  NoDup (schema_pk <$> schemas) → NoDup (schema_pk <$> filter P schemas).
Proof.
  induction schemas as [|s l IH]; [done|].
  rewrite fmap_cons. intros [Hs Hnd]%NoDup_cons.
  destruct (decide (P s)) as [HP|HP].
  - rewrite filter_cons_True by exact HP. rewrite fmap_cons.
    apply NoDup_cons. split; [|by apply IH].
    intros (s' & Heq & Hs')%list_elem_of_fmap.
    apply Hs. apply list_elem_of_fmap. exists s'. split; [exact Heq|].
    by apply list_elem_of_filter in Hs' as [_ ?].
  - rewrite filter_cons_False by exact HP. by apply IH.
Qed.

Lemma window_total_counted pk schemas records now days :
  NoDup (schema_pk <$> schemas) →
  window_total pk schemas records now days
  = Z.of_nat (length (counted_records pk schemas records now days)).
Proof.
  intros Hnd. unfold window_total, counted_records.
  set (W := λ r : Record_,
         now - timedelta_days days ≤ occurred_from r ∧ occurred_from r ≤ now).
  set (ss := filter (λ s, record_type s = pk) schemas).
  transitivity
    (foldr Z.add 0
       ((λ k, Z.of_nat (length (filter (λ r, record_schema r = k)
                                       (filter W records))))
          <$> (schema_pk <$> ss))).
  - rewrite <- list_fmap_compose. f_equal.
    apply list_fmap_ext. intros _ s _. simpl. f_equal.
    rewrite list_filter_filter. apply length_filter_iff. intros r.
    unfold W. tauto.
  - rewrite (sum_length_by_key record_schema)
      by (apply NoDup_schema_pk_filter, Hnd).
    f_equal. rewrite list_filter_filter. apply length_filter_iff.
    intros r. unfold W. tauto.
Qed.

(** X4: in every answer of [recent_counts] the three counts are ordered,
    0 ≤ month ≤ quarter ≤ year, and the answer has these three keys and no
    other. *)
Theorem recent_counts_windows_nested types schemas records now pk resp :
  recent_counts types schemas records now pk = Ok resp →
  status resp = HTTP_200_OK
  ∧ (∃ m q y,
       data resp !! "month" = Some m ∧ data resp !! "quarter" = Some q
       ∧ data resp !! "year" = Some y ∧ 0 ≤ m ∧ m ≤ q ∧ q ≤ y)
  ∧ ∀ k, is_Some (data resp !! k) → k = "month" ∨ k = "quarter" ∨ k = "year".
Proof.
  intros ->%recent_counts_Ok_inv. simpl. split; [reflexivity|]. split.
  - eexists _, _, _. split; [apply answer_values|].
    split; [apply answer_values|]. split; [apply answer_values|].
    split; [apply window_total_nonneg|].
    split; apply window_total_mono; lia.
  - intros k [v Hv]. apply answer_lookup in Hv. tauto.
Qed.

(** X5: when no two schema rows share a key, each count of [recent_counts]
    is the number of records whose schema is a schema of the type and that
    occurred within the window, each such record counted once; so no count
    exceeds the number of stored records. *)
Theorem recent_counts_counts_each_record_once
    types schemas records now pk resp :
  NoDup (schema_pk <$> schemas) →
  recent_counts types schemas records now pk = Ok resp →
  data resp !! "month"
  = Some (Z.of_nat (length (counted_records pk schemas records now 30)))
  ∧ data resp !! "quarter"
    = Some (Z.of_nat (length (counted_records pk schemas records now 90)))
  ∧ data resp !! "year"
    = Some (Z.of_nat (length (counted_records pk schemas records now 365)))
  ∧ ∀ k c, data resp !! k = Some c → c ≤ Z.of_nat (length records).
Proof.
  intros Hnd ->%recent_counts_Ok_inv. simpl.
  rewrite !(window_total_counted _ _ _ _ _ Hnd).
  split; [apply answer_values|].
  split; [apply answer_values|]. split; [apply answer_values|].
  intros k c Hk. apply answer_lookup in Hk.
  assert (Hle : ∀ d, Z.of_nat (length (counted_records pk schemas records now d))
                     ≤ Z.of_nat (length records)).
  { intros d. apply Nat2Z.inj_le. unfold counted_records. apply length_filter. }
  destruct Hk as [[_ ->]|[[_ ->]|[_ ->]]]; apply Hle.
Qed.

(** X6: [recent_counts] is additive in the stored records: over two lists
    of records put together, each count is the sum of the counts over the
    two lists. *)
Theorem recent_counts_additive
    types schemas records1 records2 now pk resp :
  recent_counts types schemas (records1 ++ records2) now pk = Ok resp →
  ∃ resp1 resp2,
    recent_counts types schemas records1 now pk = Ok resp1
    ∧ recent_counts types schemas records2 now pk = Ok resp2
    ∧ ∀ k c, data resp !! k = Some c →
        ∃ a b, data resp1 !! k = Some a ∧ data resp2 !! k = Some b
               ∧ c = a + b.
Proof.
  intros Hok. pose proof (recent_counts_Ok_inv _ _ _ _ _ _ Hok) as ->.
  destruct (objects_get MRecordType (λ t, type_pk t = pk) types)
    as [rt|e] eqn:Hget.
  - eexists _, _.
    split; [exact (recent_counts_value _ _ _ _ _ _ Hget)|].
    split; [exact (recent_counts_value _ _ _ _ _ _ Hget)|].
    simpl. intros k c Hk. apply answer_lookup in Hk.
    destruct Hk as [[-> ->]|[[-> ->]|[-> ->]]]; eexists _, _.
    + split; [apply answer_values|]. split; [apply answer_values|].
      apply window_total_app.
    + split; [apply answer_values|]. split; [apply answer_values|].
      apply window_total_app.
    + split; [apply answer_values|]. split; [apply answer_values|].
      apply window_total_app.
  - unfold recent_counts in Hok.
    generalize dependent (map_to_list durations). intros items Hok.
    unfold recent_counts_in_order in Hok.
    rewrite Hget in Hok. discriminate.
Qed.
End RecentCountsMore.

Lemma recent_counts_windows_nested_witness :
  let now := 1000 * 86400000000 in
  let resp : Response (gmap string Z) :=
    mkResponse HTTP_200_OK
      (<["month" := 1]> (<["quarter" := 2]> (<["year" := 2]> ∅))) in
  ∃ m q y,
    data resp !! "month" = Some m ∧ data resp !! "quarter" = Some q
    ∧ data resp !! "year" = Some y ∧ 0 ≤ m ∧ m ≤ q ∧ q ≤ y.
Proof.
  intros now resp.
  refine (proj1 (proj2 (recent_counts_windows_nested
    [mkRecordType 1 "Incident" "Incidents"]
    [mkRecordSchema 1 1 1 PNone (Some 2); mkRecordSchema 2 1 2 PNone None]
    [mkRecord 1 1 (now - timedelta_days 10);
     mkRecord 2 2 (now - timedelta_days 50);
     mkRecord 3 1 (now - timedelta_days 400)]
    now 1 resp _))).
  vm_compute. reflexivity.
Defined.

Lemma recent_counts_counts_each_record_once_witness :
  let now := 1000 * 86400000000 in
  let schemas :=
    [mkRecordSchema 1 1 1 PNone (Some 2); mkRecordSchema 2 1 2 PNone None] in
  let records := [mkRecord 1 1 (now - timedelta_days 10);
                  mkRecord 2 2 (now - timedelta_days 50);
                  mkRecord 3 1 (now - timedelta_days 400)] in
  let resp : Response (gmap string Z) :=
    mkResponse HTTP_200_OK
      (<["month" := 1]> (<["quarter" := 2]> (<["year" := 2]> ∅))) in
  NoDup (schema_pk <$> schemas)
  ∧ data resp !! "quarter"
    = Some (Z.of_nat (length (counted_records 1 schemas records now 90))).
Proof.
  intros now schemas records resp.
  assert (Hnd : NoDup (schema_pk <$> schemas)).
  { apply NoDup_cons. split.
    - intros Hin%list_elem_of_singleton. discriminate.
    - apply NoDup_singleton. }
  split; [exact Hnd|].
  refine (proj1 (proj2 (recent_counts_counts_each_record_once
    [mkRecordType 1 "Incident" "Incidents"] schemas records now 1 resp
    Hnd _))).
  vm_compute. reflexivity.
Defined.

Lemma recent_counts_additive_witness :
  let now := 1000 * 86400000000 in
  let types := [mkRecordType 1 "Incident" "Incidents"] in
  let schemas :=
    [mkRecordSchema 1 1 1 PNone (Some 2); mkRecordSchema 2 1 2 PNone None] in
  let resp : Response (gmap string Z) :=
    mkResponse HTTP_200_OK
      (<["month" := 1]> (<["quarter" := 2]> (<["year" := 2]> ∅))) in
  ∃ resp1 resp2,
    RecordTypeViewSet.recent_counts types schemas
      [mkRecord 1 1 (now - timedelta_days 10)] now 1 = Ok resp1
    ∧ RecordTypeViewSet.recent_counts types schemas
        [mkRecord 2 2 (now - timedelta_days 50);
         mkRecord 3 1 (now - timedelta_days 400)] now 1 = Ok resp2
    ∧ ∀ k c, data resp !! k = Some c →
        ∃ a b, data resp1 !! k = Some a ∧ data resp2 !! k = Some b
               ∧ c = a + b.
Proof.
  intros now types schemas resp.
  apply (recent_counts_additive types schemas
           [mkRecord 1 1 (now - timedelta_days 10)]
           [mkRecord 2 2 (now - timedelta_days 50);
            mkRecord 3 1 (now - timedelta_days 400)] now 1 resp).
  vm_compute. reflexivity.
Defined.

(** ** toddow: totals, bounds, NULL groups, order of the fetched rows *)

#[global] Instance tod_dow_le_antisym : AntiSymm (=) tod_dow_le.
Proof.
  intros [a b] [c d]. unfold tod_dow_le. simpl.
  intros [[Hxy Hne]|[Heq Hxy]] [[Hyx Hne']|[Heq' Hyx]].
  - destruct Hne. by apply nulls_last_le_antisym.
  - congruence.
  - congruence.
  - f_equal; [exact Heq|]. by apply nulls_last_le_antisym.
Qed.

Lemma filter_all {A} (P : A → Prop) {Pdec : ∀ x, Decision (P x)} (l : list A) :
  (∀ x, x ∈ l → P x) → filter P l = l.
Proof.
  induction l as [|x l IH]; intros Hall; [reflexivity|].
  rewrite filter_cons_True by (apply Hall; left).
  f_equal. apply IH. intros y Hy. apply Hall. by right.
Qed.

Section ToddowMore.
Variable QuerySet : Type.
Variable get_queryset : QuerySet.
Variable filter_backends : list (HttpRequest → QuerySet → QuerySet).
Variable week_day : Z → Z.
Variable hour : Z → Z.

Local Abbreviation key := (RecordViewSet.tod_dow_of week_day hour).
Local Abbreviation some_pair := (λ k : Z * Z, (Some k.1, Some k.2)).
Local Abbreviation unwrap :=
  (λ x : option Z * option Z, (default 0 x.1, default 0 x.2)).
Local Abbreviation counted_rows rows :=
  (RecordViewSet.counted
     (RecordViewSet.values_tod_dow week_day hour rows)).

(** With the lookups in range, the rows of the answer are the distinct
    pairs of the records, each with the size of its group. *)
Lemma counted_shape rows :
  (∀ t, 1 ≤ week_day t ≤ 7) → (∀ t, 0 ≤ hour t ≤ 23) →
  ∃ ks : list (Z * Z),
    counted_rows rows
    = (λ k, mkToddowRow (Some k.1) (Some k.2)
              (RecordViewSet.group_size week_day hour k rows)) <$> ks
    ∧ NoDup ks
    ∧ ∀ k, k ∈ ks ↔ ∃ r, r ∈ rows ∧ key r = k.
Proof.
  intros Hwd Hh. unfold RecordViewSet.counted.
  rewrite (values_tod_dow_in_range week_day hour Hwd Hh).
  set (pairs := key <$> rows).
  set (sorted := merge_sort tod_dow_le (remove_dups (some_pair <$> pairs))).
  assert (Hmem : ∀ x, x ∈ sorted ↔ ∃ k, x = some_pair k ∧ k ∈ pairs).
  { intros x. unfold sorted.
    rewrite merge_sort_Permutation, elem_of_remove_dups.
    apply list_elem_of_fmap. }
  exists (unwrap <$> sorted). split; [|split].
  - rewrite <- list_fmap_compose. apply Forall_fmap_ext_1, Forall_forall.
    intros x (k & -> & _)%Hmem. unfold compose. destruct k as [a b].
    cbn [fst snd default]. f_equal.
    exact (count_tod_group_size week_day hour (a, b) rows).
  - apply NoDup_fmap_2_strong.
    + intros x y (kx & -> & _)%Hmem (ky & -> & _)%Hmem.
      destruct kx, ky. simpl. congruence.
    + unfold sorted. rewrite merge_sort_Permutation. apply NoDup_remove_dups.
  - intros k. rewrite list_elem_of_fmap. split.
    + intros (x & -> & (k' & -> & Hk')%Hmem).
      destruct k' as [a b]. cbn [fst snd default].
      apply list_elem_of_fmap in Hk' as (r & Hr & Hin). eauto.
    + intros (r & Hr & <-). exists (some_pair (key r)).
      split; [by destruct (key r)|].
      apply Hmem. exists (key r). split; [reflexivity|].
      apply list_elem_of_fmap. eauto.
Qed.

(** X7: the counts of the groups add up to the number of filtered records:
    every record is in exactly one group. *)
Theorem toddow_counts_sum fetch request :
  (∀ t, 1 ≤ week_day t ≤ 7) → (∀ t, 0 ≤ hour t ≤ 23) →
  foldr Z.add 0
    (count <$> data (RecordViewSet.toddow QuerySet get_queryset
                       filter_backends fetch week_day hour request))
  = Z.of_nat
      (length (fetch (RecordViewSet.apply_filters QuerySet get_queryset
                        filter_backends request))).
Proof.
  intros Hwd Hh. unfold RecordViewSet.toddow. simpl.
  set (rows := fetch _).
  destruct (counted_shape rows Hwd Hh) as (ks & -> & Hnd & Hks).
  rewrite <- list_fmap_compose.
  unfold compose, RecordViewSet.group_size. simpl.
  rewrite (sum_length_by_key key ks rows Hnd).
  rewrite filter_all; [reflexivity|].
  intros r Hr. apply Hks. eauto.
Qed.

(** X8: the answer has at most 168 rows, one for each hour of day and day of
    week, and never more rows than there are filtered records; no record,
    no row. *)
Theorem toddow_size_bounds fetch request :
  (∀ t, 1 ≤ week_day t ≤ 7) → (∀ t, 0 ≤ hour t ≤ 23) →
  let rows := fetch (RecordViewSet.apply_filters QuerySet get_queryset
                       filter_backends request) in
  let answer := data (RecordViewSet.toddow QuerySet get_queryset
                        filter_backends fetch week_day hour request) in
  (length answer ≤ 168)%nat
  ∧ (length answer ≤ length rows)%nat
  ∧ (rows = [] → answer = []).
Proof.
  intros Hwd Hh rows answer. subst answer.
  unfold RecordViewSet.toddow. simpl. fold rows.
  destruct (counted_shape rows Hwd Hh) as (ks & -> & Hnd & Hks).
  rewrite length_fmap.
  assert (H168 : (length ks ≤ 168)%nat).
  { change 168%nat with (length all_tod_dow).
    apply submseteq_length, NoDup_submseteq; [exact Hnd|].
    intros [a b] (r & _ & Hr)%Hks. unfold all_tod_dow.
    apply list_elem_of_cprod. simpl.
    injection Hr as <- <-.
    pose proof (Hwd (occurred_from r)). pose proof (Hh (occurred_from r)).
    split; apply elem_of_seqZ; lia. }
  assert (Hrows : (length ks ≤ length rows)%nat).
  { rewrite <- (length_fmap key rows).
    apply submseteq_length, NoDup_submseteq; [exact Hnd|].
    intros k (r & Hr & <-)%Hks. apply list_elem_of_fmap. eauto. }
  split; [exact H168|]. split; [exact Hrows|].
  intros Hnil. rewrite Hnil in Hrows. simpl in Hrows.
  destruct ks; [reflexivity|simpl in Hrows; lia].
Qed.

(** X9: whatever the lookups return, no two rows of the answer have the same
    pair of [tod] and [dow]; a row whose [tod] is NULL (the hour matched no
    [When]) has count 0, since [Count('tod')] skips NULLs, and every other
    row has a count of at least 1. *)
Theorem toddow_null_groups fetch request :
  let answer := data (RecordViewSet.toddow QuerySet get_queryset
                        filter_backends fetch week_day hour request) in
  NoDup ((λ g, (tod g, dow g)) <$> answer)
  ∧ ∀ g, g ∈ answer →
      (tod g = None → count g = 0) ∧ (is_Some (tod g) → 1 ≤ count g).
Proof.
  intros answer. subst answer. unfold RecordViewSet.toddow. simpl.
  set (vals := RecordViewSet.values_tod_dow week_day hour (fetch _)).
  unfold RecordViewSet.counted. split.
  - rewrite <- list_fmap_compose.
    rewrite (list_fmap_ext _ id (merge_sort tod_dow_le (remove_dups vals)))
      by (intros _ [a b] _; reflexivity).
    rewrite list_fmap_id, merge_sort_Permutation. apply NoDup_remove_dups.
  - intros g (k & -> & Hk)%list_elem_of_fmap. simpl.
    rewrite merge_sort_Permutation, elem_of_remove_dups in Hk.
    unfold RecordViewSet.count_tod. split.
    + intros Hnone. rewrite filter_none; [reflexivity|].
      intros k' _ [-> [v Hv]]. congruence.
    + intros Hsome.
      assert (Hin : k ∈ filter (λ k', k' = k ∧ is_Some k'.1) vals)
        by (apply list_elem_of_filter; split; [split; [reflexivity|exact Hsome]|exact Hk]).
      destruct (filter (λ k', k' = k ∧ is_Some k'.1) vals).
      * by apply elem_of_nil in Hin.
      * simpl. lia.
Qed.

(** X10: the answer does not depend on the order in which the database
    returns the filtered records. *)
Theorem toddow_order_independent fetch fetch' request :
  (∀ q, fetch q ≡ₚ fetch' q) →
  RecordViewSet.toddow QuerySet get_queryset filter_backends fetch
    week_day hour request
  = RecordViewSet.toddow QuerySet get_queryset filter_backends fetch'
      week_day hour request.
Proof.
  intros Hfetch. unfold RecordViewSet.toddow. f_equal.
  set (q := RecordViewSet.apply_filters _ _ _ _).
  specialize (Hfetch q).
  assert (Hvals : RecordViewSet.values_tod_dow week_day hour (fetch q)
                  ≡ₚ RecordViewSet.values_tod_dow week_day hour (fetch' q))
    by (unfold RecordViewSet.values_tod_dow; by rewrite Hfetch).
  set (vals := RecordViewSet.values_tod_dow week_day hour (fetch q)) in *.
  set (vals' := RecordViewSet.values_tod_dow week_day hour (fetch' q)) in *.
  unfold RecordViewSet.counted.
  assert (Hsorted : merge_sort tod_dow_le (remove_dups vals)
                    = merge_sort tod_dow_le (remove_dups vals')).
  { apply (Sorted_unique tod_dow_le).
    - apply (Sorted_merge_sort _).
    - apply (Sorted_merge_sort _).
    - rewrite !merge_sort_Permutation.
      apply NoDup_Permutation; [apply NoDup_remove_dups..|].
      intros x. rewrite !elem_of_remove_dups. by rewrite Hvals. }
  rewrite Hsorted. apply list_fmap_ext. intros _ k _. f_equal.
  unfold RecordViewSet.count_tod. f_equal. by rewrite Hvals.
Qed.
End ToddowMore.

Lemma toddow_counts_sum_witness :
  let rows := [mkRecord 1 1 (4 * 86400000000 + 600000000);
               mkRecord 2 1 (13 * 3600000000);
               mkRecord 3 1 (4 * 86400000000)] in
  foldr Z.add 0
    (count <$> data (RecordViewSet.toddow (list Record_) rows [] (λ q, q)
                       utc_week_day utc_hour (mkHttpRequest ∅)))
  = 3.
Proof.
  intros rows.
  exact (toddow_counts_sum (list Record_) rows [] utc_week_day utc_hour
           (λ q, q) (mkHttpRequest ∅) utc_week_day_range utc_hour_range).
Defined.

Lemma toddow_size_bounds_witness :
  let rows := [mkRecord 1 1 (4 * 86400000000 + 600000000);
               mkRecord 2 1 (13 * 3600000000);
               mkRecord 3 1 (4 * 86400000000)] in
  (length (data (RecordViewSet.toddow (list Record_) rows [] (λ q, q)
                   utc_week_day utc_hour (mkHttpRequest ∅))) ≤ 168)%nat.
Proof.
  intros rows.
  exact (proj1 (toddow_size_bounds (list Record_) rows [] utc_week_day
                  utc_hour (λ q, q) (mkHttpRequest ∅)
                  utc_week_day_range utc_hour_range)).
Defined.

Lemma toddow_null_groups_witness :
  let rows := [mkRecord 1 1 (4 * 86400000000); mkRecord 2 1 0] in
  NoDup ((λ g, (tod g, dow g))
           <$> data (RecordViewSet.toddow (list Record_) rows [] (λ q, q)
                       utc_week_day (λ _, 24) (mkHttpRequest ∅))).
Proof.
  intros rows.
  exact (proj1 (toddow_null_groups (list Record_) rows [] utc_week_day
                  (λ _, 24) (λ q, q) (mkHttpRequest ∅))).
Defined.

Lemma toddow_order_independent_witness :
  let rows := [mkRecord 1 1 (4 * 86400000000); mkRecord 2 1 0] in
  RecordViewSet.toddow (list Record_) rows [] (λ q, q)
    utc_week_day utc_hour (mkHttpRequest ∅)
  = RecordViewSet.toddow (list Record_) rows [] (λ q, reverse q)
      utc_week_day utc_hour (mkHttpRequest ∅).
Proof.
  intros rows.
  apply (toddow_order_independent (list Record_) rows [] utc_week_day
           utc_hour (λ q, q) (λ q, reverse q) (mkHttpRequest ∅)).
  intros q. symmetry. apply reverse_Permutation.
Defined.

(** ** BoundaryViewSet.create and geojson *)

(** X11: whatever the inherited create does, [create] never ends with an
    [IntegrityError]; it writes nothing of its own (the table is the one the
    inherited create left); and every exception it does end with is the one
    the inherited create raised. *)
Theorem boundary_create_never_integrity_error
    (super_create : gmap string pyval → list Boundary
                    → result (Response pyval) * list Boundary)
    request_data table :
  let out := BoundaryViewSet.create super_create request_data table in
  out.1 ≠ Raise IntegrityError
  ∧ out.2 = (super_create request_data table).2
  ∧ (∀ e, out.1 = Raise e → (super_create request_data table).1 = Raise e)
  ∧ (∀ response,
       (super_create request_data table).1 = Ok response → out.1 = Ok response).
Proof.
  unfold BoundaryViewSet.create.
  destruct (super_create request_data table) as [[resp|e] table']; simpl.
  - repeat split; try discriminate; auto.
  - destruct e; simpl; repeat split; try discriminate; auto.
Qed.

Section Geojson.
Variable filter_queryset : HttpRequest → list Boundary → list Boundary.
Variable to_representation : BoundaryPolygon → pyval.

Local Abbreviation geojson :=
  (BoundaryGeojson.geojson filter_queryset to_representation).

(** X12: for a boundary the filtered query set holds under the key,
    [geojson] answers a FeatureCollection with one feature per polygon of
    that boundary, in the order of the rows, and the polygons of other
    boundaries change nothing; a boundary without polygons gives an empty
    list of features.  When no boundary of the filtered query set has the
    key the view ends with [Http404], whatever polygons are stored. *)
Theorem geojson_features request boundaries polygons pk :
  (∀ b,
     objects_get MBoundary (λ b, boundary_pk b = pk)
       (filter_queryset request boundaries) = Ok b →
     ∃ features,
       geojson request boundaries polygons pk
       = Responded
           (mkResponse HTTP_200_OK
              (PDict [("type", PStr "FeatureCollection");
                      ("features", PList features)]))
       ∧ features
         = to_representation
             <$> filter (λ p, polygon_boundary p = pk) polygons
       ∧ (∀ others,
            Forall (λ p, polygon_boundary p ≠ pk) others →
            geojson request boundaries (polygons ++ others) pk
            = geojson request boundaries polygons pk
            ∧ geojson request boundaries (others ++ polygons) pk
              = geojson request boundaries polygons pk)
       ∧ (Forall (λ p, polygon_boundary p ≠ pk) polygons → features = []))
  ∧ ((∀ b, b ∈ filter_queryset request boundaries → boundary_pk b ≠ pk) →
     geojson request boundaries polygons pk = Http404).
Proof.
  split.
  - intros b Hget.
    assert (Hpk : boundary_pk b = pk)
      by (apply objects_get_Ok_elem in Hget as [_ ?]; done).
    assert (Hgeo : ∀ ps,
      geojson request boundaries ps pk
      = Responded
          (mkResponse HTTP_200_OK
             (PDict [("type", PStr "FeatureCollection");
                     ("features",
                      PList (to_representation
                               <$> filter (λ p, polygon_boundary p = pk) ps))]))).
    { intros ps. unfold BoundaryGeojson.geojson, BoundaryGeojson.get_object.
      rewrite Hget. simpl. unfold BoundaryGeojson.polygons_values.
      rewrite Hpk. reflexivity. }
    assert (Hnone : ∀ others,
      Forall (λ p, polygon_boundary p ≠ pk) others →
      filter (λ p, polygon_boundary p = pk) others = []).
    { intros others Hothers. apply filter_none.
      intros p Hp. rewrite Forall_forall in Hothers. by apply Hothers. }
    eexists. split; [apply Hgeo|]. split; [reflexivity|]. split.
    + intros others Hothers. rewrite !Hgeo, !filter_app, (Hnone _ Hothers).
      rewrite app_nil_r. done.
    + intros Hall. by rewrite (Hnone _ Hall).
  - intros Hno. unfold BoundaryGeojson.geojson, BoundaryGeojson.get_object.
    rewrite (objects_get_none MBoundary _ _ Hno). reflexivity.
Qed.
End Geojson.

Lemma geojson_features_witness :
  BoundaryGeojson.geojson (λ _ bs, bs) (λ p, polygon_data p)
    (mkHttpRequest ∅) [mkBoundary 1 "wards"]
    [mkBoundaryPolygon 1 1 PNone (PStr "north")] 2
  = Http404.
Proof.
  apply (proj2 (geojson_features (λ _ bs, bs) (λ p, polygon_data p)
                  (mkHttpRequest ∅) [mkBoundary 1 "wards"]
                  [mkBoundaryPolygon 1 1 PNone (PStr "north")] 2)).
  intros b Hb%list_elem_of_singleton. subst b. simpl. lia.
Defined.

Lemma boundary_create_never_integrity_error_witness :
  (BoundaryViewSet.create BoundaryViewSet.model_create
     (<["label" := PStr "wards"]> ∅) [mkBoundary 1 "wards"]).1
  ≠ Raise IntegrityError.
Proof.
  exact (proj1 (boundary_create_never_integrity_error
                  BoundaryViewSet.model_create
                  (<["label" := PStr "wards"]> ∅) [mkBoundary 1 "wards"])).
Defined.
